(** * prism-insight dashboard: language provider and trading-history page

    A shallow embedding of
      - examples/dashboard/components/language-provider.tsx
      - the TradingHistoryPage component (trading-history page)
    together with the properties stated about them.

    Modelling conventions.
      - A JavaScript [number] of the data is named by the rational it
        stands for ([Q]); comparisons and truthiness are those of the
        doubles.  Sums, products and quotients are rounded by the engine:
        module [Runtime] computes them in IEEE 754 binary64, and the
        statements that depend on arithmetic are made there.
      - A JavaScript object used as a string-keyed table is a finite map
        of its own properties: [gmap string _] where it is only looked up,
        an association list in insertion order where [Object.entries]
        enumerates it.  Reading a property also finds the members
        inherited from [Object.prototype]; module [Runtime] has the
        lookups that find them, and the statements that depend on the
        name of a key are made there.
      - Optional fields ([x?: T], [undefined]) are [option].
      - React state and [localStorage] are threaded explicitly. *)

From Stdlib Require Import QArith Qround Qabs Lia DecimalString.
From Stdlib Require Import Sorting.Sorted Sorting.Permutation.
From Stdlib Require DecimalPos.
From Stdlib Require Import Floats.SpecFloat.
From stdpp Require Import gmap strings list.

Open Scope string_scope.

(** ** JavaScript helpers *)

Module Js.

(** [a < b] on numbers. *)
Definition ltb (a b : Q) : bool := negb (Qle_bool b a).

(** [a > b] on numbers. *)
Definition gtb (a b : Q) : bool := ltb b a.

(** Truthiness of a number: every number but zero. *)
Definition truthy_number (x : Q) : bool := negb (Qeq_bool x 0).

(** Truthiness of a string: every string but the empty one. *)
Definition truthy_string (s : string) : bool :=
  match s with
  | EmptyString => false
  | String _ _ => true
  end.

(** [o || d] for an optional string [o] and a string [d]. *)
Definition string_or (o : option string) (d : string) : string :=
  match o with
  | Some s => if truthy_string s then s else d
  | None => d
  end.

(** [o ? ... : ...] sees an optional number through this filter: the
    number when it is present and truthy. *)
Definition truthy_opt_number (o : option Q) : option Q :=
  match o with
  | Some x => if truthy_number x then Some x else None
  | None => None
  end.

(** Decimal numeral of a non-negative integer. *)
Definition digits (n : Z) : string := NilZero.string_of_int (Z.to_int n).

(** Nearest integer to a non-negative number, the larger one on a tie
    (step 8.a of Number.prototype.toFixed with zero fraction digits). *)
Definition nearest (x : Q) : Z := Qfloor (x + (1 # 2)).

Definition ten21 : Q := inject_Z (10 ^ 21).

Section ToFixed.

(** Number::toString, which toFixed falls back to from 10^21 upwards,
    depends on the binary representation of the double; it is taken as
    a parameter. *)
Variable numberToString : Q -> string.

(** [x.toFixed(0)] for a finite [x]: the sign is split off first, then
    the magnitude is printed. *)
Definition toFixed0 (x : Q) : string :=
  let s := if ltb x 0 then "-" else "" in
  let x := if ltb x 0 then (- x)%Q else x in
  if Qle_bool ten21 x then s ++ numberToString x
  else s ++ digits (nearest x).

End ToFixed.

End Js.

(** ** The records of [@/types/dashboard] that the page reads *)

Record KeyLevels := {
  primary_support : option string;
  secondary_support : option string;
  primary_resistance : option string;
  secondary_resistance : option string
}.

Record TradingScenarios := {
  key_levels : option KeyLevels;
  sell_triggers : option (list string);
  hold_conditions : option (list string);
  portfolio_context : option string
}.

Record Scenario := {
  sector : option string;
  investment_period : option string;
  target_price : option Q;
  rationale : option string;
  portfolio_analysis : option string;
  valuation_analysis : option string;
  sector_outlook : option string;
  market_condition : option string;
  trading_scenarios : option TradingScenarios
}.

Record Trade := {
  id : string;
  ticker : string;
  company_name : string;
  buy_price : Q;
  sell_price : Q;
  buy_date : string;
  sell_date : string;
  holding_days : Z;
  profit_rate : Q;
  scenario : option Scenario
}.

Record SummaryTrading := {
  total_trades : Q;
  win_rate : Q;
  avg_profit_rate : Q;
  avg_holding_days : Q
}.

(** [trade.scenario?.sector] and its siblings. *)
Definition scenario_sector (trade : Trade) : option string :=
  match scenario trade with Some sc => sector sc | None => None end.

Definition scenario_investment_period (trade : Trade) : option string :=
  match scenario trade with Some sc => investment_period sc | None => None end.

Definition scenario_target_price (trade : Trade) : option Q :=
  match scenario trade with Some sc => target_price sc | None => None end.

(** ** Best and worst trade *)

(** The accumulator of the two reductions is a trade of the list or the
    literal [{ profit_rate: 0 }]. *)
Inductive Pick :=
| Listed (trade : Trade)
| Bare (rate : Q).

Definition pick_rate (p : Pick) : Q :=
  match p with
  | Listed trade => profit_rate trade
  | Bare r => r
  end.

(** [history[0] || { profit_rate: 0 }] *)
Definition first_or_zero (history : list Trade) : Pick :=
  match history with
  | trade :: _ => Listed trade
  | [] => Bare 0
  end.

Definition bestTrade (history : list Trade) : Pick :=
  fold_left
    (fun best trade =>
       if Js.gtb (profit_rate trade) (pick_rate best) then Listed trade else best)
    history (first_or_zero history).

Definition worstTrade (history : list Trade) : Pick :=
  fold_left
    (fun worst trade =>
       if Js.ltb (profit_rate trade) (pick_rate worst) then Listed trade else worst)
    history (first_or_zero history).

(** ** language-provider.tsx *)

Inductive Language := ko | en.

(** The string a [Language] value is at run time. *)
Definition language_string (lang : Language) : string :=
  match lang with
  | ko => "ko"
  | en => "en"
  end.

(** The translation dictionary. *)
Definition translations (lang : Language) : gmap string string :=
  match lang with
  | ko => list_to_map [
      ("header.season", "Season 2");
      ("header.openSource", "Open Source");
      ("header.tooltip.openSource", "AI 기반 주식 분석 및 매매 시스템 • MIT License");
      ("header.startDate", "시작: 2025.09.29");
      ("header.updated", "업데이트");
      ("header.realtimeUpdate", "실시간 업데이트");
      ("header.dashboard", "대시보드");
      ("header.aiDecisions", "AI 보유 분석");
      ("header.trading", "거래 내역");
      ("header.watchlist", "관심 종목");
      ("header.tooltip.github", "GitHub 저장소");
      ("header.tooltip.telegram", "텔레그램 채널");
      ("header.tooltip.theme", "테마 전환");
      ("loading.text", "데이터 로딩 중...");
      ("table.realPortfolio", "실전투자 포트폴리오");
      ("table.simulator", "프리즘 시뮬레이터");
      ("table.stock", "종목");
      ("table.quantity", "수량");
      ("table.avgPrice", "평균단가");
      ("table.currentPrice", "현재가");
      ("table.profitRate", "수익률");
      ("table.profitAmount", "평가손익");
      ("table.totalValue", "평가금액");
      ("metrics.totalReturn", "누적 수익률");
      ("metrics.winRate", "승률");
      ("metrics.avgReturn", "평균 수익률");
      ("metrics.avgHoldingDays", "평균 보유일");
      ("metrics.totalTrades", "총 거래");
      ("metrics.wins", "승");
      ("metrics.losses", "패");
      ("common.won", "원");
      ("common.krw", "₩");
      ("common.percent", "%");
      ("common.days", "일");
      ("common.trades", "건") ]
  | en => list_to_map [
      ("header.season", "Season 2");
      ("header.openSource", "Open Source");
      ("header.tooltip.openSource",
       "AI-powered Stock Analysis & Trading System • MIT License");
      ("header.startDate", "Start: 2025.09.29");
      ("header.updated", "Updated");
      ("header.realtimeUpdate", "Real-time Update");
      ("header.dashboard", "Dashboard");
      ("header.aiDecisions", "AI Holdings");
      ("header.trading", "Trades");
      ("header.watchlist", "Watchlist");
      ("header.tooltip.github", "GitHub Repository");
      ("header.tooltip.telegram", "Telegram Channel");
      ("header.tooltip.theme", "Toggle Theme");
      ("loading.text", "Loading data...");
      ("table.realPortfolio", "Real Trading Portfolio");
      ("table.simulator", "Prism Simulator");
      ("table.stock", "Stock");
      ("table.quantity", "Qty");
      ("table.avgPrice", "Avg Price");
      ("table.currentPrice", "Current");
      ("table.profitRate", "Return");
      ("table.profitAmount", "P&L");
      ("table.totalValue", "Value");
      ("metrics.totalReturn", "Total Return");
      ("metrics.winRate", "Win Rate");
      ("metrics.avgReturn", "Avg Return");
      ("metrics.avgHoldingDays", "Avg Days");
      ("metrics.totalTrades", "Total Trades");
      ("metrics.wins", "Wins");
      ("metrics.losses", "Losses");
      ("common.won", "KRW");
      ("common.krw", "₩");
      ("common.percent", "%");
      ("common.days", "d");
      ("common.trades", "trades") ]
  end.

(** What a call returns: a value, or a thrown [Error] with its message. *)
Inductive Outcome (A : Type) :=
| Returns (value : A)
| Throws (message : string).

Arguments Returns {A} value.
Arguments Throws {A} message.

(** The provider's React state is the language; [localStorage] is a map
    from item names to strings.  A provider in the browser is the pair. *)
Record Browser := {
  language : Language;
  localStorage : gmap string string
}.

(** [useState<Language>("ko")]: a provider starts in Korean, whatever the
    storage holds. *)
Definition useState_initial : Language := ko.

(** The effect run once on mount. *)
Definition load_on_mount (b : Browser) : Browser :=
  let stored := localStorage b !! "language" in
  if bool_decide (stored = Some "ko") then
    {| language := ko; localStorage := localStorage b |}
  else if bool_decide (stored = Some "en") then
    {| language := en; localStorage := localStorage b |}
  else b.

(** A provider instance freshly started over a given storage: first
    render, then the mount effect. *)
Definition LanguageProvider_start (storage : gmap string string) : Browser :=
  load_on_mount {| language := useState_initial; localStorage := storage |}.

Definition setLanguage (lang : Language) (b : Browser) : Browser :=
  {| language := lang;
     localStorage := <["language" := language_string lang]> (localStorage b) |}.

(** [translations[language][key] || key], as a function into strings: the
    own properties of the dictionary.  [Runtime.t] also has what the
    lookup returns for the names inherited from [Object.prototype]. *)
Definition t (lang : Language) (key : string) : string :=
  Js.string_or (translations lang !! key) key.

(** The value a provider hands to its descendants. *)
Record LanguageContextType := {
  ctx_language : Language;
  ctx_setLanguage : Language -> Browser -> Browser;
  ctx_t : string -> string
}.

Definition LanguageProvider_value (b : Browser) : LanguageContextType :=
  {| ctx_language := language b;
     ctx_setLanguage := setLanguage;
     ctx_t := t (language b) |}.

(** [useContext(LanguageContext)]: the value of the nearest enclosing
    provider (the list holds the enclosing providers' values, innermost
    first), or the default given to [createContext], [undefined]. *)
Definition useContext (enclosing : list LanguageContextType)
  : option LanguageContextType :=
  match enclosing with
  | value :: _ => Some value
  | [] => None
  end.

Definition useLanguage (enclosing : list LanguageContextType)
  : Outcome LanguageContextType :=
  match useContext enclosing with
  | None => Throws "useLanguage must be used within a LanguageProvider"
  | Some context => Returns context
  end.

(** ** Objects enumerated with [Object.entries], and [Array.prototype.sort] *)

Section Objects.

Context {V : Type}.

(** [o[key]], for an object whose property values are objects (so that
    the property is truthy exactly when it is there). *)
Fixpoint get (key : string) (o : list (string * V)) : option V :=
  match o with
  | [] => None
  | (k, v) :: rest => if String.eqb k key then Some v else get key rest
  end.

(** In-place update of the value under [key]. *)
Fixpoint alter_key (f : V -> V) (key : string) (o : list (string * V))
  : list (string * V) :=
  match o with
  | [] => []
  | (k, v) :: rest =>
      if String.eqb k key then (k, f v) :: rest
      else (k, v) :: alter_key f key rest
  end.

(** [o[key] = v]: overwrites in place, or adds the property last. *)
Definition assign (key : string) (v : V) (o : list (string * V))
  : list (string * V) :=
  match get key o with
  | Some _ => alter_key (fun _ => v) key o
  | None => o ++ [(key, v)]
  end.

End Objects.

Section Sorting.

Context {A : Type}.

(** [after x y]: [x] has to come after [y]. *)
Variable after : A -> A -> bool.

Fixpoint insert_by (x : A) (sorted : list A) : list A :=
  match sorted with
  | [] => [x]
  | y :: rest => if after x y then y :: insert_by x rest else x :: sorted
  end.

(** The stable sort: an element moves past those it has to come after
    and stays in front of its equals. *)
Definition sort_by (l : list A) : list A := foldr insert_by [] l.

End Sorting.

(** [array.sort(compare)]: the sort is stable, and for a comparator that is
    a difference of numbers its result is the stable ordering. *)
Definition Array_sort {A : Type} (compare : A -> A -> Q) (array : list A)
  : list A :=
  sort_by (fun a b => Js.gtb (compare a b) 0) array.

(** [array.slice(0, n)] *)
Definition Array_slice0 {A : Type} (n : nat) (array : list A) : list A :=
  firstn n array.

(** A property key that is an array index: the canonical numeral of an
    integer below 2^32 - 1. *)
Definition array_index (key : string) : option N :=
  match NilEmpty.uint_of_string key with
  | Some d =>
      let n := N.of_uint d in
      if String.eqb (NilZero.string_of_uint (N.to_uint n)) key
         && (n <? 2 ^ 32 - 1)%N
      then Some n else None
  | None => None
  end.

Definition is_array_index (key : string) : bool :=
  match array_index key with Some _ => true | None => false end.

Definition index_after (a b : string) : bool :=
  match array_index a, array_index b with
  | Some i, Some j => (j <? i)%N
  | _, _ => false
  end.

(** [Object.entries(o)]: array-index keys in ascending order, then the
    other keys in the order they were added. *)
Definition Object_entries {V : Type} (o : list (string * V))
  : list (string * V) :=
  sort_by (fun a b => index_after (fst a) (fst b))
          (List.filter (fun e => is_array_index (fst e)) o)
  ++ List.filter (fun e => negb (is_array_index (fst e))) o.

(** ** Sector and period performance *)

Record Perf := {
  total : Q;
  count : nat;
  avgProfit : Q
}.

(** The body of both reductions, for the label of the trade at hand, with
    exact sums and quotients and over own properties; [Runtime.tally] is
    the same body with the engine's arithmetic and property reads. *)
Definition tally (label : string) (rate : Q) (acc : list (string * Perf))
  : list (string * Perf) :=
  let acc1 :=
    match get label acc with
    | Some _ => acc
    | None => assign label {| total := 0; count := 0; avgProfit := 0 |} acc
    end in
  let acc2 :=
    alter_key (fun p => {| total := total p + rate;
                           count := count p;
                           avgProfit := avgProfit p |}) label acc1 in
  let acc3 :=
    alter_key (fun p => {| total := total p;
                           count := count p + 1;
                           avgProfit := avgProfit p |}) label acc2 in
  alter_key (fun p => {| total := total p;
                         count := count p;
                         avgProfit := total p / inject_Z (Z.of_nat (count p)) |})
            label acc3.

Section Page.

(** The [t] obtained from [useLanguage()]. *)
Variable t_ : string -> string.

(** [trade.scenario?.sector || t("common.other")] *)
Definition sector_label (trade : Trade) : string :=
  Js.string_or (scenario_sector trade) (t_ "common.other").

(** [trade.scenario?.investment_period || t("common.unclassified")] *)
Definition period_label (trade : Trade) : string :=
  Js.string_or (scenario_investment_period trade) (t_ "common.unclassified").

Definition sectorPerformance (history : list Trade) : list (string * Perf) :=
  fold_left (fun acc trade => tally (sector_label trade) (profit_rate trade) acc)
            history [].

Definition sortedSectors (history : list Trade) : list (string * Perf) :=
  Array_slice0 3
    (Array_sort (fun a b => (avgProfit (snd b) - avgProfit (snd a))%Q)
                (Object_entries (sectorPerformance history))).

Definition periodPerformance (history : list Trade) : list (string * Perf) :=
  fold_left (fun acc trade => tally (period_label trade) (profit_rate trade) acc)
            history [].

End Page.

(** ** What the page renders *)

(** The target-achievement cell: either the division the template
    evaluates, or the dash. *)
Inductive Achievement :=
| Ratio (sell target : Q)
| NoTarget.

(** The guard [trade.scenario?.target_price ? ... : "-"]. *)
Definition target_achievement (trade : Trade) : Achievement :=
  match Js.truthy_opt_number (scenario_target_price trade) with
  | Some target => Ratio (sell_price trade) target
  | None => NoTarget
  end.

(** The divisor of the division evaluated for a cell, when there is one. *)
Definition divisor (cell : Achievement) : option Q :=
  match cell with
  | Ratio _ target => Some target
  | NoTarget => None
  end.

(** One entry of the per-trade listing. *)
Record TradeRow := {
  row_trade : Trade;
  row_sector_badge : option string;
  row_period_badge : option string;
  row_achievement : string
}.

(** The top-level pieces of the page, in document order. *)
Inductive Block :=
| Header (total : Q)
| StatCards (total win_rate avg_profit avg_days : Q)
| BestWorstCards (best worst : Pick)
| PerformanceCards (sectors periods : option (list (string * Perf)))
| DetailCard (rows : list TradeRow)
| EmptyState (message : string).

(** [x || 0] *)
Definition or_zero (x : Q) : Q := if Js.truthy_number x then x else 0.

(** [condition && <element/>] *)
Definition when {A : Type} (condition : bool) (element : A) : list A :=
  if condition then [element] else [].

(** A badge shown for a truthy optional string. *)
Definition badge (o : option string) : option string :=
  match o with
  | Some s => if Js.truthy_string s then Some s else None
  | None => None
  end.

Section Render.

Variable numberToString : Q -> string.
Variable t_ : string -> string.

(** The text of the cell, the ratio taken exactly;
    [Runtime.target_achievement_text] takes it in doubles. *)
Definition achievement_text (cell : Achievement) : string :=
  match cell with
  | Ratio sell target =>
      Js.toFixed0 numberToString (sell / target * 100) ++ "%"
  | NoTarget => "-"
  end.

Definition render_trade (trade : Trade) : TradeRow :=
  {| row_trade := trade;
     row_sector_badge := badge (scenario_sector trade);
     row_period_badge := badge (scenario_investment_period trade);
     row_achievement := achievement_text (target_achievement trade) |}.

Definition render (history : list Trade) (summary : SummaryTrading)
  : list Block :=
  [ Header (or_zero (total_trades summary));
    StatCards (or_zero (total_trades summary)) (or_zero (win_rate summary))
              (or_zero (avg_profit_rate summary))
              (or_zero (avg_holding_days summary)) ]
  ++ when (0 <? length history)%nat
       (BestWorstCards (bestTrade history) (worstTrade history))
  ++ when (0 <? length history)%nat
       (PerformanceCards
          (if (0 <? length (sortedSectors t_ history))%nat
           then Some (sortedSectors t_ history) else None)
          (if (0 <? length (Object_entries (periodPerformance t_ history)))%nat
           then Some (Object_entries (periodPerformance t_ history)) else None))
  ++ [ DetailCard (map render_trade history) ]
  ++ when (length history =? 0)%nat
       (EmptyState "아직 거래 내역이 없습니다.").

End Render.

(** The component: [useLanguage()] first, then the template. *)
Definition TradingHistoryPage (numberToString : Q -> string)
    (enclosing : list LanguageContextType)
    (history : list Trade) (summary : SummaryTrading) : Outcome (list Block) :=
  match useLanguage enclosing with
  | Throws message => Throws message
  | Returns context =>
      Returns (render numberToString (ctx_t context) history summary)
  end.

(** ** Vocabulary of the statements *)

(** The trades of a list carrying a given label. *)
Definition labelled (label_of : Trade -> string) (label : string)
    (history : list Trade) : list Trade :=
  List.filter (fun trade => String.eqb (label_of trade) label) history.

Definition sum_rates (trades : list Trade) : Q :=
  fold_right (fun trade s => (profit_rate trade + s)%Q) 0%Q trades.

(** Arithmetic mean of the profit rates of a list of trades. *)
Definition mean_rate (trades : list Trade) : Q :=
  (sum_rates trades / inject_Z (Z.of_nat (length trades)))%Q.

Definition sum_counts (groups : list (string * Perf)) : nat :=
  fold_right (fun g n => (count (snd g) + n)%nat) 0%nat groups.



Definition is_aggregate_card (b : Block) : bool :=
  match b with
  | StatCards _ _ _ _ | BestWorstCards _ _ | PerformanceCards _ _ => true
  | _ => false
  end.

Definition is_listing (b : Block) : bool :=
  match b with
  | DetailCard _ => true
  | _ => false
  end.

Definition is_empty_state (b : Block) : bool :=
  match b with
  | EmptyState _ => true
  | _ => false
  end.

(** The sign [toFixed] prints in front of the digits. *)
Definition sign_text (x : Q) : string := if Js.ltb x 0 then "-" else "".

Definition no_summary : SummaryTrading :=
  {| total_trades := 0; win_rate := 0; avg_profit_rate := 0;
     avg_holding_days := 0 |}.

(** A trade with the given numbers and scenario fields, and nothing else. *)
Definition trade_of (rate sell : Q) (sec per : option string) (target : option Q)
  : Trade :=
  {| id := ""; ticker := ""; company_name := "";
     buy_price := 0; sell_price := sell; buy_date := ""; sell_date := "";
     holding_days := 0; profit_rate := rate;
     scenario := Some {| sector := sec; investment_period := per;
                         target_price := target; rationale := None;
                         portfolio_analysis := None; valuation_analysis := None;
                         sector_outlook := None; market_condition := None;
                         trading_scenarios := None |} |}.

(** A trade with no scenario at all. *)
Definition bare_trade (rate sell : Q) : Trade :=
  {| id := ""; ticker := ""; company_name := "";
     buy_price := 0; sell_price := sell; buy_date := ""; sell_date := "";
     holding_days := 0; profit_rate := rate; scenario := None |}.

(** What the three assignments of [tally] make of a group. *)
Definition bump (rate : Q) (p : Perf) : Perf :=
  {| total := total p + rate;
     count := count p + 1;
     avgProfit := (total p + rate) / inject_Z (Z.of_nat (count p + 1)) |}.

(** [acc] is the grouping of the trades [seen] by [label_of]: one group per
    label that occurs, holding the number, the sum and the mean of the
    profit rates of the trades with that label. *)
Definition groups (label_of : Trade -> string) (acc : list (string * Perf))
    (seen : list Trade) : Prop :=
  List.NoDup (map fst acc)
  /\ (forall k, get k acc = None -> labelled label_of k seen = [])
  /\ (forall k p, get k acc = Some p ->
        labelled label_of k seen <> []
        /\ count p = length (labelled label_of k seen)
        /\ (total p == sum_rates (labelled label_of k seen))%Q
        /\ (avgProfit p == mean_rate (labelled label_of k seen))%Q)
  /\ sum_counts acc = length seen.

(** ** Number formatting *)

Fixpoint zeros (k : nat) : string :=
  match k with
  | O => ""
  | S k' => "0" ++ zeros k'
  end.

(** The first [n] characters of a string, and the rest. *)
Fixpoint split_at (n : nat) (s : string) : string * string :=
  match n, s with
  | S n', String c s' => let (a, b) := split_at n' s' in (String c a, b)
  | _, _ => ("", s)
  end.

Section Formatting.

Variable numberToString : Q -> string.

(** [x.toFixed(f)] for a finite [x], step by step: sign, the fallback
    from 10^21 upwards, the nearest integer [n] to [x * 10^f] (the larger
    one on a tie), its digits padded with zeros to [f + 1] characters, and
    the point before the last [f] of them. *)
Definition toFixed (f : nat) (x : Q) : string :=
  let s := if Js.ltb x 0 then "-" else "" in
  let x := if Js.ltb x 0 then (- x)%Q else x in
  if Qle_bool Js.ten21 x then s ++ numberToString x
  else
    let n := Js.nearest (x * inject_Z (10 ^ Z.of_nat f)) in
    let m := Js.digits n in
    let m :=
      match f with
      | O => m
      | S _ =>
          let k := String.length m in
          let m := if (k <=? f)%nat then zeros (f + 1 - k) ++ m else m in
          let k := if (k <=? f)%nat then (f + 1)%nat else k in
          let (a, b) := split_at (k - f) m in
          a ++ "." ++ b
      end in
    s ++ m.

(** [`${value >= 0 ? "+" : ""}${value.toFixed(2)}%`] *)
Definition formatPercent (value : Q) : string :=
  (if Qle_bool 0 value then "+" else "") ++ toFixed 2 value ++ "%".

End Formatting.

(** The number a string of decimal digits stands for. *)
Definition decimal_value (s : string) : option Z :=
  option_map Z.of_uint (NilEmpty.uint_of_string s).

(** ** Further vocabulary *)

(** The distinct elements of a list, each at its first occurrence. *)
Fixpoint first_occurrences (labels : list string) : list string :=
  match labels with
  | [] => []
  | l :: rest =>
      l :: List.filter (fun k => negb (String.eqb k l)) (first_occurrences rest)
  end.

(** [fresh keys k]: there is no property [k] among [keys]. *)
Definition fresh (keys : list string) (k : string) : bool :=
  negb (existsb (String.eqb k) keys).


(** A run of [setLanguage] calls, first call first. *)
Definition setLanguage_calls (calls : list Language) (b : Browser) : Browser :=
  fold_left (fun b lang => setLanguage lang b) calls b.

(** ** The same lines as the engine runs them

    Two things the definitions above leave aside are modelled here, for
    the statements that depend on them: a number is an IEEE 754 binary64
    value, so sums, products and quotients are rounded; and reading a
    property of an object literal or of [{}] also finds the members
    inherited from [Object.prototype]. *)

Module Runtime.

Definition prec : Z := 53.
Definition emax : Z := 1024.

(** The double nearest to a rational (ties to even), which is the rational
    itself when it is a double; this is also how a decimal literal of the
    data is read. *)
Definition number_of (q : Q) : spec_float :=
  match Qnum q with
  | Z0 => S754_zero false
  | Zpos n =>
      SFdiv prec emax (S754_finite false n 0) (S754_finite false (Qden q) 0)
  | Zneg n =>
      SFdiv prec emax (S754_finite true n 0) (S754_finite false (Qden q) 0)
  end.

(** The rational a finite double with mantissa [m] and exponent [e] is. *)
Definition finite_value (s : bool) (m : positive) (e : Z) : Q :=
  let magnitude :=
    match e with
    | Z0 => inject_Z (Zpos m)
    | Zpos k => inject_Z (Zpos m * 2 ^ Zpos k)
    | Zneg k => Zpos m # 2 ^ k
    end in
  if s then (- magnitude)%Q else magnitude.

Definition number_value (x : spec_float) : option Q :=
  match x with
  | S754_zero _ => Some 0%Q
  | S754_finite s m e => Some (finite_value s m e)
  | S754_infinity _ | S754_nan => None
  end.

(** [q] is the value of a double. *)
Definition is_number (q : Q) : bool :=
  match number_value (number_of q) with
  | Some v => Qeq_bool v q
  | None => false
  end.

Definition add : spec_float -> spec_float -> spec_float := SFadd prec emax.
Definition mul : spec_float -> spec_float -> spec_float := SFmul prec emax.
Definition div : spec_float -> spec_float -> spec_float := SFdiv prec emax.

(** Truthiness of a number: every number but the zeros and NaN. *)
Definition truthy (x : spec_float) : bool :=
  match x with
  | S754_zero _ | S754_nan => false
  | S754_infinity _ | S754_finite _ _ _ => true
  end.

(** The own property names of [Object.prototype]; every one of them holds
    a function or an object, hence something truthy that is not a
    string. *)
Definition Object_prototype_members : list string :=
  [ "constructor"; "__defineGetter__"; "__defineSetter__"; "hasOwnProperty";
    "__lookupGetter__"; "__lookupSetter__"; "isPrototypeOf";
    "propertyIsEnumerable"; "toString"; "valueOf"; "__proto__";
    "toLocaleString" ].

Definition inherited (key : string) : bool :=
  existsb (String.eqb key) Object_prototype_members.

(** What [t] can return: a string, or the inherited member of that name. *)
Inductive Value :=
| Text (s : string)
| Member (name : string).

(** [translations[language][key] || key]: an own property when there is
    one, else an inherited member, else [undefined]. *)
Definition t (lang : Language) (key : string) : Value :=
  match translations lang !! key with
  | Some s => if Js.truthy_string s then Text s else Text key
  | None => if inherited key then Member key else Text key
  end.

Record Perf := {
  total : spec_float;
  count : nat;
  avgProfit : spec_float
}.

(** The body of both reductions.  [acc[label]] is falsy only when [label]
    is neither an own property nor an inherited member; the three writes
    go to the own property when there is one, and otherwise land on the
    inherited member, leaving [acc] as it is.  A count stays below 2^32,
    the bound on the length of an array, so it is exact. *)
Definition tally (label : string) (rate : Q) (acc : list (string * Perf))
  : list (string * Perf) :=
  let acc1 :=
    match get label acc with
    | Some _ => acc
    | None =>
        if inherited label then acc
        else assign label {| total := S754_zero false; count := 0;
                             avgProfit := S754_zero false |} acc
    end in
  let acc2 :=
    alter_key (fun p => {| total := add (total p) (number_of rate);
                           count := count p;
                           avgProfit := avgProfit p |}) label acc1 in
  let acc3 :=
    alter_key (fun p => {| total := total p;
                           count := count p + 1;
                           avgProfit := avgProfit p |}) label acc2 in
  alter_key (fun p => {| total := total p;
                         count := count p;
                         avgProfit :=
                           div (total p)
                               (number_of (inject_Z (Z.of_nat (count p)))) |})
            label acc3.

Section Page.

Variable t_ : string -> string.

Definition sectorPerformance (history : list Trade) : list (string * Perf) :=
  fold_left (fun acc trade => tally (sector_label t_ trade) (profit_rate trade) acc)
            history [].

Definition periodPerformance (history : list Trade) : list (string * Perf) :=
  fold_left (fun acc trade => tally (period_label t_ trade) (profit_rate trade) acc)
            history [].

End Page.

Section Render.

Variable numberToString : Q -> string.

(** [x.toFixed(0)] for any number: what is not finite prints by name. *)
Definition toFixed0 (x : spec_float) : string :=
  match x with
  | S754_nan => "NaN"
  | S754_infinity s => if s then "-Infinity" else "Infinity"
  | S754_zero _ => Js.toFixed0 numberToString 0
  | S754_finite s m e => Js.toFixed0 numberToString (finite_value s m e)
  end.

(** [(trade.sell_price / trade.scenario.target_price) * 100] *)
Definition achievement_ratio (sell target : Q) : spec_float :=
  mul (div (number_of sell) (number_of target)) (number_of 100).

(** The target-achievement cell of a trade. *)
Definition target_achievement_text (trade : Trade) : string :=
  match scenario_target_price trade with
  | Some target =>
      if truthy (number_of target)
      then toFixed0 (achievement_ratio (sell_price trade) target) ++ "%"
      else "-"
  | None => "-"
  end.

End Render.

(** The sum the reduction keeps: left to right, from zero. *)
Definition running_sum (rates : list Q) : spec_float :=
  fold_left (fun s r => add s (number_of r)) rates (S754_zero false).

Definition sum_counts (groups : list (string * Perf)) : nat :=
  fold_right (fun g n => (count (snd g) + n)%nat) 0%nat groups.

End Runtime.

(** The label of a trade in the words of the data model: the field of its
    scenario when the scenario is there and the field is a non-empty
    string, and the fallback otherwise. *)
Definition label_in_words (field : Scenario -> option string)
    (fallback : string) (trade : Trade) : string :=
  match scenario trade with
  | Some sc =>
      match field sc with
      | Some (String c s) => String c s
      | Some EmptyString | None => fallback
      end
  | None => fallback
  end.

(** The trades whose label in words is [label]. *)
Definition members_in_words (field : Scenario -> option string)
    (fallback label : string) (history : list Trade) : list Trade :=
  List.filter (fun trade => String.eqb (label_in_words field fallback trade) label)
              history.

(** [acc] groups the trades [seen] as the engine does. *)
Definition runtime_groups (label_of : Trade -> string)
    (acc : list (string * Runtime.Perf)) (seen : list Trade) : Prop :=
  List.NoDup (map fst acc)
  /\ (forall k, get k acc = None ->
         Runtime.inherited k = true \/ labelled label_of k seen = [])
  /\ (forall k p, get k acc = Some p ->
        Runtime.inherited k = false
        /\ labelled label_of k seen <> []
        /\ Runtime.count p = length (labelled label_of k seen)
        /\ Runtime.total p
           = Runtime.running_sum (map profit_rate (labelled label_of k seen))
        /\ Runtime.avgProfit p
           = Runtime.div (Runtime.total p)
               (Runtime.number_of
                  (inject_Z (Z.of_nat (length (labelled label_of k seen))))))
  /\ Runtime.sum_counts acc
     = length (List.filter (fun trade => negb (Runtime.inherited (label_of trade)))
                           seen).

(** * Properties *)

(** ** Comparisons and truthiness *)

Lemma ltb_lt (a b : Q) : Js.ltb a b = true <-> (a < b)%Q.
Proof.
  unfold Js.ltb. rewrite negb_true_iff. split.
  - intros H. apply Qnot_le_lt. intros Hle.
    apply Qle_bool_iff in Hle. congruence.
  - intros H. destruct (Qle_bool b a) eqn:E; [|reflexivity].
    apply Qle_bool_iff in E. exfalso. exact (Qlt_not_le _ _ H E).
Qed.

Lemma ltb_ge (a b : Q) : Js.ltb a b = false <-> (b <= a)%Q.
Proof.
  unfold Js.ltb. rewrite negb_false_iff. apply Qle_bool_iff.
Qed.

Lemma truthy_number_nonzero (x : Q) :
  Js.truthy_number x = true <-> ~ (x == 0)%Q.
Proof.
  unfold Js.truthy_number. rewrite negb_true_iff. split.
  - intros H E. apply Qeq_bool_iff in E. congruence.
  - intros H. destruct (Qeq_bool x 0) eqn:E; [|reflexivity].
    apply Qeq_bool_iff in E. contradiction.
Qed.

Lemma truthy_number_zero (x : Q) :
  Js.truthy_number x = false <-> (x == 0)%Q.
Proof.
  unfold Js.truthy_number. rewrite negb_false_iff. apply Qeq_bool_iff.
Qed.

(** ** Best and worst trade *)

Section BestWorst.

Let better (best : Pick) (trade : Trade) : Pick :=
  if Js.gtb (profit_rate trade) (pick_rate best) then Listed trade else best.

Let worse (worst : Pick) (trade : Trade) : Pick :=
  if Js.ltb (profit_rate trade) (pick_rate worst) then Listed trade else worst.

Lemma best_scan (l : list Trade) (acc : Pick) :
  (pick_rate acc <= pick_rate (fold_left better l acc))%Q
  /\ (forall trade, In trade l ->
        (profit_rate trade <= pick_rate (fold_left better l acc))%Q)
  /\ (fold_left better l acc = acc
      \/ exists b, fold_left better l acc = Listed b /\ In b l).
Proof.
  revert acc. induction l as [|x l IH]; intros acc; simpl.
  - split; [apply Qle_refl|]. split; [intros ? []|]. now left.
  - destruct (IH (better acc x)) as (Hacc & Hall & Hmem).
    assert (Hstep : (pick_rate acc <= pick_rate (better acc x))%Q
                    /\ (profit_rate x <= pick_rate (better acc x))%Q).
    { unfold better, Js.gtb.
      destruct (Js.ltb (pick_rate acc) (profit_rate x)) eqn:E; simpl.
      - apply ltb_lt in E. split; [now apply Qlt_le_weak | apply Qle_refl].
      - apply ltb_ge in E. split; [apply Qle_refl | exact E]. }
    destruct Hstep as [H1 H2].
    split; [eapply Qle_trans; eassumption|].
    split.
    + intros trade [<-|Hin]; [eapply Qle_trans; eassumption | now apply Hall].
    + destruct Hmem as [Heq | (b & Hb & Hin)].
      * rewrite Heq. unfold better.
        destruct (Js.gtb (profit_rate x) (pick_rate acc));
          [right; exists x; split; [reflexivity | now left] | now left].
      * right. exists b. split; [exact Hb | now right].
Qed.

Lemma worst_scan (l : list Trade) (acc : Pick) :
  (pick_rate (fold_left worse l acc) <= pick_rate acc)%Q
  /\ (forall trade, In trade l ->
        (pick_rate (fold_left worse l acc) <= profit_rate trade)%Q)
  /\ (fold_left worse l acc = acc
      \/ exists w, fold_left worse l acc = Listed w /\ In w l).
Proof.
  revert acc. induction l as [|x l IH]; intros acc; simpl.
  - split; [apply Qle_refl|]. split; [intros ? []|]. now left.
  - destruct (IH (worse acc x)) as (Hacc & Hall & Hmem).
    assert (Hstep : (pick_rate (worse acc x) <= pick_rate acc)%Q
                    /\ (pick_rate (worse acc x) <= profit_rate x)%Q).
    { unfold worse.
      destruct (Js.ltb (profit_rate x) (pick_rate acc)) eqn:E; simpl.
      - apply ltb_lt in E. split; [now apply Qlt_le_weak | apply Qle_refl].
      - apply ltb_ge in E. split; [apply Qle_refl | exact E]. }
    destruct Hstep as [H1 H2].
    split; [eapply Qle_trans; eassumption|].
    split.
    + intros trade [<-|Hin]; [eapply Qle_trans; eassumption | now apply Hall].
    + destruct Hmem as [Heq | (w & Hw & Hin)].
      * rewrite Heq. unfold worse.
        destruct (Js.ltb (profit_rate x) (pick_rate acc));
          [right; exists x; split; [reflexivity | now left] | now left].
      * right. exists w. split; [exact Hw | now right].
Qed.

(** C1.  For a non-empty trade list, the best trade is a trade of the
    list whose profit rate is greater than or equal to that of every
    trade of the list, and the worst trade is a trade of the list whose
    profit rate is less than or equal to that of every trade of the
    list. *)
Theorem best_worst_bounds (history : list Trade) :
  history <> [] ->
  (exists b w, bestTrade history = Listed b /\ In b history
               /\ worstTrade history = Listed w /\ In w history)
  /\ forall trade, In trade history ->
       (profit_rate trade <= pick_rate (bestTrade history))%Q
       /\ (pick_rate (worstTrade history) <= profit_rate trade)%Q.
Proof.
  intros Hne. destruct history as [|x l]; [congruence|].
  unfold bestTrade, worstTrade. cbn [first_or_zero].
  destruct (best_scan (x :: l) (Listed x)) as (_ & Hb & Hbm).
  destruct (worst_scan (x :: l) (Listed x)) as (_ & Hw & Hwm).
  split.
  - assert (Eb : exists b, fold_left better (x :: l) (Listed x) = Listed b
                           /\ In b (x :: l)).
    { destruct Hbm as [E | H]; [|exact H].
      exists x. split; [exact E | now left]. }
    assert (Ew : exists w, fold_left worse (x :: l) (Listed x) = Listed w
                           /\ In w (x :: l)).
    { destruct Hwm as [E | H]; [|exact H].
      exists x. split; [exact E | now left]. }
    destruct Eb as (b & Eb1 & Eb2). destruct Ew as (w & Ew1 & Ew2).
    exists b, w. repeat split; [exact Eb1 | exact Eb2 | exact Ew1 | exact Ew2].
  - intros trade Hin. split; [exact (Hb trade Hin) | exact (Hw trade Hin)].
Qed.

End BestWorst.

Lemma best_worst_bounds_witness :
  let history := [bare_trade 5 0; bare_trade (-3) 0; bare_trade 10 0] in
  history <> []
  /\ forall trade, In trade history ->
       (profit_rate trade <= pick_rate (bestTrade history))%Q
       /\ (pick_rate (worstTrade history) <= profit_rate trade)%Q.
Proof.
  intros history. split; [discriminate|].
  apply (best_worst_bounds history). discriminate.
Defined.

(** ** Objects as association lists *)

Section ObjectFacts.

Context {V : Type}.
Implicit Types (o : list (string * V)) (key : string).

Lemma get_app_absent key o k v :
  get key o = None ->
  get key (o ++ [(k, v)]) = if String.eqb k key then Some v else None.
Proof.
  induction o as [|[k0 v0] o IH]; simpl; [reflexivity|].
  destruct (String.eqb k0 key); [discriminate | exact IH].
Qed.

Lemma get_app_present key o k v x :
  get key o = Some x -> get key (o ++ [(k, v)]) = Some x.
Proof.
  induction o as [|[k0 v0] o IH]; simpl; [discriminate|].
  destruct (String.eqb k0 key); [trivial | exact IH].
Qed.

Lemma get_alter_same f key o :
  get key (alter_key f key o) = option_map f (get key o).
Proof.
  induction o as [|[k0 v0] o IH]; simpl; [reflexivity|].
  destruct (String.eqb k0 key) eqn:E; simpl; rewrite E; [reflexivity | exact IH].
Qed.

Lemma get_alter_other f key k o :
  k <> key -> get k (alter_key f key o) = get k o.
Proof.
  intros Hne. induction o as [|[k0 v0] o IH]; simpl; [reflexivity|].
  destruct (String.eqb k0 key) eqn:E; simpl.
  - apply String.eqb_eq in E. subst k0.
    destruct (String.eqb key k) eqn:E'; [|reflexivity].
    apply String.eqb_eq in E'. congruence.
  - destruct (String.eqb k0 k); [reflexivity | exact IH].
Qed.

Lemma keys_alter f key o : map fst (alter_key f key o) = map fst o.
Proof.
  induction o as [|[k0 v0] o IH]; simpl; [reflexivity|].
  destruct (String.eqb k0 key); simpl; [reflexivity | now rewrite IH].
Qed.

Lemma alter_alter f g key o :
  alter_key f key (alter_key g key o) = alter_key (fun v => f (g v)) key o.
Proof.
  induction o as [|[k0 v0] o IH]; simpl; [reflexivity|].
  destruct (String.eqb k0 key) eqn:E; simpl; rewrite E; [reflexivity|].
  now rewrite IH.
Qed.

Lemma alter_app_absent f key o v :
  get key o = None ->
  alter_key f key (o ++ [(key, v)]) = (o ++ [(key, f v)])%list.
Proof.
  induction o as [|[k0 v0] o IH]; simpl.
  - now rewrite String.eqb_refl.
  - destruct (String.eqb k0 key); [discriminate|].
    intros H. now rewrite IH.
Qed.

Lemma get_None_keys key o : get key o = None <-> ~ In key (map fst o).
Proof.
  induction o as [|[k0 v0] o IH]; simpl; [tauto|].
  destruct (String.eqb k0 key) eqn:E.
  - apply String.eqb_eq in E. split; [discriminate | intros H; exfalso; auto].
  - apply String.eqb_neq in E. rewrite IH. tauto.
Qed.

Lemma In_get key v o :
  List.NoDup (map fst o) -> (In (key, v) o <-> get key o = Some v).
Proof.
  induction o as [|[k0 v0] o IH]; simpl; intros Hnd.
  - split; [tauto | discriminate].
  - inversion Hnd as [|? ? Hnotin Hnd']; subst.
    destruct (String.eqb k0 key) eqn:E.
    + apply String.eqb_eq in E. subst k0. split.
      * intros [H | H]; [congruence|].
        exfalso. apply Hnotin. change key with (fst (key, v)).
        now apply in_map.
      * intros H. left. congruence.
    + apply String.eqb_neq in E. rewrite <- (IH Hnd'). split.
      * intros [H | H]; [congruence | exact H].
      * intros H. now right.
Qed.

End ObjectFacts.

(** ** Sector and period aggregation *)

Lemma alter_key_ext {V : Type} (f g : V -> V) key (o : list (string * V)) :
  (forall v, f v = g v) -> alter_key f key o = alter_key g key o.
Proof.
  intros H. induction o as [|[k0 v0] o IH]; simpl; [reflexivity|].
  destruct (String.eqb k0 key); [now rewrite H | now rewrite IH].
Qed.

Lemma tally_bump label rate acc :
  tally label rate acc =
  match get label acc with
  | Some _ => alter_key (bump rate) label acc
  | None =>
      (acc ++ [(label, bump rate {| total := 0; count := 0; avgProfit := 0 |})])%list
  end.
Proof.
  unfold tally. destruct (get label acc) eqn:E.
  - rewrite !alter_alter. apply alter_key_ext. intros v. reflexivity.
  - unfold assign. rewrite E. now rewrite !(alter_app_absent _ _ _ _ E).
Qed.

Lemma sum_counts_app a b :
  sum_counts (a ++ b) = (sum_counts a + sum_counts b)%nat.
Proof.
  induction a as [|g a IH]; simpl; [reflexivity|]. rewrite IH. lia.
Qed.

Lemma sum_counts_alter f key o p :
  get key o = Some p ->
  (sum_counts (alter_key f key o) + count p = sum_counts o + count (f p))%nat.
Proof.
  induction o as [|[k0 v0] o IH]; simpl; [discriminate|].
  destruct (String.eqb k0 key); simpl.
  - intros [= ->]. lia.
  - intros H. specialize (IH H). lia.
Qed.

Lemma sum_rates_snoc l x :
  (sum_rates (l ++ [x]) == sum_rates l + profit_rate x)%Q.
Proof.
  induction l as [|y l IH]; simpl.
  - ring.
  - rewrite IH. ring.
Qed.

Section Grouping.

Variable label_of : Trade -> string.

Lemma labelled_snoc k seen trade :
  labelled label_of k (seen ++ [trade]) =
  (labelled label_of k seen
     ++ (if String.eqb (label_of trade) k then [trade] else []))%list.
Proof.
  unfold labelled. rewrite List.filter_app. simpl.
  now destruct (String.eqb (label_of trade) k).
Qed.

Lemma labelled_other k seen trade :
  label_of trade <> k ->
  labelled label_of k (seen ++ [trade]) = labelled label_of k seen.
Proof.
  intros Hne. rewrite labelled_snoc.
  apply String.eqb_neq in Hne. rewrite Hne. apply app_nil_r.
Qed.

Lemma labelled_same seen trade :
  labelled label_of (label_of trade) (seen ++ [trade]) =
  (labelled label_of (label_of trade) seen ++ [trade])%list.
Proof.
  rewrite labelled_snoc. now rewrite String.eqb_refl.
Qed.

(** The group of a label after one more trade with that label. *)
Lemma bump_group seen trade p :
  count p = length (labelled label_of (label_of trade) seen) ->
  (total p == sum_rates (labelled label_of (label_of trade) seen))%Q ->
  let members := labelled label_of (label_of trade) (seen ++ [trade]) in
  let p' := bump (profit_rate trade) p in
  members <> []
  /\ count p' = length members
  /\ (total p' == sum_rates members)%Q
  /\ (avgProfit p' == mean_rate members)%Q.
Proof.
  intros Hc Ht members p'. subst members p'.
  rewrite labelled_same.
  set (M := labelled label_of (label_of trade) seen) in *.
  split; [destruct M; discriminate|].
  split; [simpl; rewrite List.length_app; simpl; lia|].
  split; [simpl; rewrite sum_rates_snoc, Ht; reflexivity|].
  unfold mean_rate. simpl. rewrite List.length_app. simpl.
  rewrite sum_rates_snoc, Ht, Hc. reflexivity.
Qed.

Lemma groups_step acc seen trade :
  groups label_of acc seen ->
  groups label_of (tally (label_of trade) (profit_rate trade) acc)
         (seen ++ [trade]).
Proof.
  intros (Hnd & Hnone & Hsome & Hsum).
  rewrite tally_bump.
  destruct (get (label_of trade) acc) as [p0|] eqn:E.
  - (* the label already has a group *)
    destruct (Hsome _ _ E) as (_ & Hc & Ht & _).
    split; [now rewrite keys_alter|].
    split; [|split].
    + intros k Hk.
      destruct (String.eqb (label_of trade) k) eqn:Ek.
      * apply String.eqb_eq in Ek. subst k.
        rewrite get_alter_same, E in Hk. discriminate.
      * apply String.eqb_neq in Ek.
        rewrite get_alter_other in Hk by congruence.
        rewrite labelled_other by exact Ek. now apply Hnone.
    + intros k p Hk.
      destruct (String.eqb (label_of trade) k) eqn:Ek.
      * apply String.eqb_eq in Ek. subst k.
        rewrite get_alter_same, E in Hk. injection Hk as <-.
        now apply bump_group.
      * apply String.eqb_neq in Ek.
        rewrite get_alter_other in Hk by congruence.
        rewrite labelled_other by exact Ek. now apply Hsome.
    + pose proof (sum_counts_alter (bump (profit_rate trade)) _ _ _ E) as H.
      simpl in H. rewrite List.length_app. simpl. lia.
  - (* a new group is added last *)
    pose proof (Hnone _ E) as Hempty.
    split; [|split; [|split]].
    + rewrite List.map_app. simpl.
      apply List.NoDup_app; [exact Hnd | repeat constructor; intros [] |].
      intros a Ha [<-|[]]. now apply (get_None_keys (label_of trade) acc).
    + intros k Hk.
      destruct (get k acc) as [x|] eqn:Ex.
      * rewrite (get_app_present _ _ _ _ _ Ex) in Hk. discriminate.
      * rewrite (get_app_absent _ _ _ _ Ex) in Hk.
        destruct (String.eqb (label_of trade) k) eqn:Ek; [discriminate|].
        apply String.eqb_neq in Ek.
        rewrite labelled_other by exact Ek. now apply Hnone.
    + intros k p Hk.
      destruct (get k acc) as [x|] eqn:Ex.
      * rewrite (get_app_present _ _ _ _ _ Ex) in Hk. injection Hk as <-.
        assert (Hne : label_of trade <> k) by congruence.
        rewrite labelled_other by exact Hne. now apply Hsome.
      * rewrite (get_app_absent _ _ _ _ Ex) in Hk.
        destruct (String.eqb (label_of trade) k) eqn:Ek; [|discriminate].
        apply String.eqb_eq in Ek. subst k. injection Hk as <-.
        apply bump_group; rewrite Hempty; reflexivity.
    + rewrite sum_counts_app, List.length_app. simpl. lia.
Qed.

Lemma groups_fold l :
  forall acc seen,
    groups label_of acc seen ->
    groups label_of
      (fold_left (fun acc trade => tally (label_of trade) (profit_rate trade) acc)
                 l acc)
      (seen ++ l).
Proof.
  induction l as [|x l IH]; intros acc seen H; simpl.
  - now rewrite app_nil_r.
  - replace (seen ++ x :: l)%list with ((seen ++ [x]) ++ l)%list
      by (rewrite <- List.app_assoc; reflexivity).
    apply IH. now apply groups_step.
Qed.

Lemma groups_start : groups label_of [] [].
Proof.
  split; [constructor|]. split; [reflexivity|].
  split; [discriminate | reflexivity].
Qed.

(** What a finished grouping says, in terms of the entries of the object. *)
Lemma groups_entries acc history :
  groups label_of acc history ->
  (forall label p, In (label, p) acc ->
     let members := labelled label_of label history in
     members <> []
     /\ count p = length members
     /\ (avgProfit p == mean_rate members)%Q)
  /\ (forall trade, In trade history ->
        exists p, In (label_of trade, p) acc)
  /\ List.NoDup (map fst acc)
  /\ sum_counts acc = length history.
Proof.
  intros (Hnd & Hnone & Hsome & Hsum).
  split; [|split; [|split]]; [| |exact Hnd|exact Hsum].
  - intros label p Hin. apply (In_get _ _ _ Hnd) in Hin.
    destruct (Hsome _ _ Hin) as (H1 & H2 & _ & H4). auto.
  - intros trade Hin.
    destruct (get (label_of trade) acc) as [p|] eqn:E.
    + exists p. now apply (In_get _ _ _ Hnd).
    + exfalso. pose proof (Hnone _ E) as Hempty.
      assert (Hm : In trade (labelled label_of (label_of trade) history)).
      { unfold labelled. apply List.filter_In. split; [exact Hin|].
        apply String.eqb_refl. }
      rewrite Hempty in Hm. exact Hm.
Qed.

End Grouping.

(** ** Sorting *)

Section SortFacts.

Context {A : Type}.
Variable after : A -> A -> bool.
Variable R : A -> A -> Prop.
Hypothesis after_true : forall x y, after x y = true -> R y x.
Hypothesis after_false : forall x y, after x y = false -> R x y.






End SortFacts.









(** Three trades, two in "tech" (5 and -3) and one in "finance" (10): the
    averages are 1 and 10, and the top list is finance, then tech. *)
Example sector_averages_example :
  map (fun g => (fst g, count (snd g), Qred (avgProfit (snd g))))
      (sortedSectors (t ko)
         [trade_of 5 0 (Some "tech") None None;
          trade_of (-3) 0 (Some "tech") None None;
          trade_of 10 0 (Some "finance") None None])
  = [("finance", 1%nat, 10%Q); ("tech", 2%nat, 1%Q)].
Proof. reflexivity. Qed.


(** ** The empty trade list *)

(** C4 as stated fails: for the empty list the page still shows the
    statistics cards and the listing card next to the placeholder. *)
Lemma empty_page_keeps_cards :
  let page := render (fun _ => "") (t ko) [] no_summary in
  ~ (existsb is_empty_state page = true
     /\ existsb is_aggregate_card page = false
     /\ existsb is_listing page = false).
Proof.
  intros page (_ & H & _). vm_compute in H. discriminate.
Qed.

(** C4, amended.  For the empty trade list the best and the worst trade
    are the literal with profit rate 0, and the page consists of the
    header, the four statistics cards, the listing card with no entry and
    the placeholder message; the best/worst cards and the sector/period
    cards are left out.  For a list with a trade there is no placeholder. *)
Theorem empty_history_page (numberToString : Q -> string)
    (context : LanguageContextType) (outer : list LanguageContextType)
    (summary : SummaryTrading) :
  bestTrade [] = Bare 0
  /\ worstTrade [] = Bare 0
  /\ TradingHistoryPage numberToString (context :: outer) [] summary
     = Returns [ Header (or_zero (total_trades summary));
                 StatCards (or_zero (total_trades summary))
                           (or_zero (win_rate summary))
                           (or_zero (avg_profit_rate summary))
                           (or_zero (avg_holding_days summary));
                 DetailCard [];
                 EmptyState "아직 거래 내역이 없습니다." ]
  /\ forall trade rest,
       existsb is_empty_state
         (render numberToString (ctx_t context) (trade :: rest) summary) = false.
Proof.
  split; [reflexivity|]. split; [reflexivity|]. split; [reflexivity|].
  intros trade rest. unfold render. cbn [length Nat.ltb Nat.leb Nat.eqb when].
  cbn [app existsb is_empty_state orb]. reflexivity.
Qed.

(** ** Fallback labels *)

(** C5 on the code: neither dictionary has the keys [common.other] and
    [common.unclassified], so [t] hands the keys back and a trade without
    scenario is grouped under the raw keys. *)
Theorem fallback_labels_are_raw_keys (lang : Language) (rate sell : Q) :
  translations lang !! "common.other" = None
  /\ translations lang !! "common.unclassified" = None
  /\ map fst (sectorPerformance (t lang) [bare_trade rate sell])
     = ["common.other"]
  /\ map fst (periodPerformance (t lang) [bare_trade rate sell])
     = ["common.unclassified"].
Proof.
  destruct lang; repeat split; reflexivity.
Qed.

(** ** Language state and storage *)

Lemma start_adopts_stored (storage : gmap string string) (lang : Language) :
  storage !! "language" = Some (language_string lang) ->
  language (LanguageProvider_start storage) = lang.
Proof.
  intros H. unfold LanguageProvider_start, load_on_mount. cbn [localStorage].
  rewrite H. destruct lang; reflexivity.
Qed.

(** C7.  After [setLanguage("en")] and then [setLanguage("ko")] the stored
    item is ["ko"], the second value; a provider freshly started over a
    storage that holds a supported language reports that language, and so
    does one started over the storage left by the two calls. *)
Theorem language_round_trip :
  (forall b : Browser,
     localStorage (setLanguage ko (setLanguage en b)) !! "language" = Some "ko"
     /\ language
          (LanguageProvider_start (localStorage (setLanguage ko (setLanguage en b))))
        = ko)
  /\ (forall (storage : gmap string string) (lang : Language),
        storage !! "language" = Some (language_string lang) ->
        language (LanguageProvider_start storage) = lang
        /\ ctx_language (LanguageProvider_value (LanguageProvider_start storage))
           = lang).
Proof.
  split.
  - intros b.
    assert (H : localStorage (setLanguage ko (setLanguage en b)) !! "language"
                = Some "ko").
    { unfold setLanguage. cbn [localStorage language_string].
      apply lookup_insert_eq. }
    split; [exact H|]. now apply (start_adopts_stored _ ko).
  - intros storage lang H.
    pose proof (start_adopts_stored storage lang H) as E.
    split; [exact E|]. unfold LanguageProvider_value. cbn [ctx_language]. exact E.
Qed.

Lemma language_round_trip_witness :
  let storage : gmap string string := <["language" := "en"]> ∅ in
  storage !! "language" = Some (language_string en)
  /\ language (LanguageProvider_start storage) = en.
Proof.
  intros storage. split; [reflexivity|].
  apply (proj2 language_round_trip storage en). reflexivity.
Defined.

(** ** Target achievement *)

Lemma nearest_bounds (y : Q) :
  (0 <= y)%Q ->
  (0 <= Js.nearest y)%Z
  /\ (inject_Z (Js.nearest y) - (1 # 2) <= y)%Q
  /\ (y < inject_Z (Js.nearest y) + (1 # 2))%Q.
Proof.
  intros Hy. unfold Js.nearest.
  pose proof (Qfloor_le (y + (1 # 2))) as Hlo.
  pose proof (Qlt_floor (y + (1 # 2))) as Hhi.
  split; [|split].
  - change 0%Z with (Qfloor 0). apply Qfloor_resp_le.
    apply Qle_trans with y; [exact Hy|].
    rewrite <- (Qplus_0_r y) at 1. apply Qplus_le_r. discriminate.
  - apply (Qplus_le_l _ _ (1 # 2)). ring_simplify.
    ring_simplify in Hlo. exact Hlo.
  - rewrite inject_Z_plus in Hhi.
    apply (Qplus_lt_l _ _ (1 # 2)). ring_simplify.
    ring_simplify in Hhi. exact Hhi.
Qed.

Lemma toFixed0_rounds (numberToString : Q -> string) (x : Q) :
  (Qabs x < Js.ten21)%Q ->
  exists n : Z,
    (0 <= n)%Z
    /\ (inject_Z n - (1 # 2) <= Qabs x)%Q
    /\ (Qabs x < inject_Z n + (1 # 2))%Q
    /\ Js.toFixed0 numberToString x = sign_text x ++ Js.digits n.
Proof.
  intros Hsmall. unfold Js.toFixed0, sign_text.
  destruct (Js.ltb x 0) eqn:Eneg.
  - apply ltb_lt in Eneg.
    assert (Habs : (Qabs x == - x)%Q) by (apply Qabs_neg; now apply Qlt_le_weak).
    assert (Hpos : (0 <= - x)%Q).
    { apply (Qplus_le_l _ _ x). ring_simplify. now apply Qlt_le_weak. }
    destruct (Qle_bool Js.ten21 (- x)) eqn:Ebig.
    { apply Qle_bool_iff in Ebig. rewrite <- Habs in Ebig.
      exfalso. exact (Qlt_not_le _ _ Hsmall Ebig). }
    destruct (nearest_bounds (- x) Hpos) as (H0 & H1 & H2).
    exists (Js.nearest (- x)). rewrite Habs. auto.
  - apply ltb_ge in Eneg.
    assert (Habs : (Qabs x == x)%Q) by (now apply Qabs_pos).
    destruct (Qle_bool Js.ten21 x) eqn:Ebig.
    { apply Qle_bool_iff in Ebig. rewrite <- Habs in Ebig.
      exfalso. exact (Qlt_not_le _ _ Hsmall Ebig). }
    destruct (nearest_bounds x Eneg) as (H0 & H1 & H2).
    exists (Js.nearest x). rewrite Habs. auto.
Qed.

Lemma falsy_target_dash (numberToString : Q -> string) (trade : Trade) target :
  scenario_target_price trade = Some target ->
  (target == 0)%Q ->
  target_achievement trade = NoTarget
  /\ row_achievement (render_trade numberToString trade) = "-".
Proof.
  intros Ht Hz.
  assert (E : target_achievement trade = NoTarget).
  { unfold target_achievement. rewrite Ht. cbn [Js.truthy_opt_number].
    apply truthy_number_zero in Hz. rewrite Hz. reflexivity. }
  split; [exact E|].
  unfold render_trade. cbn [row_achievement]. rewrite E. reflexivity.
Qed.

(** C8 as stated fails: a target price of zero is present, yet the cell
    shows the dash and no percentage. *)
Lemma zero_target_shows_dash :
  let trade := trade_of 0 11000 None None (Some 0%Q) in
  scenario_target_price trade = Some 0%Q
  /\ ~ (exists value,
          row_achievement (render_trade (fun _ => "") trade) = value ++ "%")
  /\ ~ (exists value,
          Runtime.target_achievement_text (fun _ => "") trade = value ++ "%").
Proof.
  intros trade. split; [reflexivity|].
  split; intros (value & H); vm_compute in H;
    (destruct value as [|c value]; [discriminate|]);
    injection H as _ H; destruct value; discriminate.
Qed.

(** C10.  For a trade whose target price is zero the cell takes the branch
    of an absent target and shows the dash; and whatever the trade, the
    division of the cell is never evaluated with a zero divisor. *)
Theorem zero_target_never_divides (numberToString : Q -> string) (trade : Trade) :
  (forall target,
     scenario_target_price trade = Some target ->
     (target == 0)%Q ->
     target_achievement trade = NoTarget
     /\ row_achievement (render_trade numberToString trade) = "-")
  /\ (forall d, divisor (target_achievement trade) = Some d -> ~ (d == 0)%Q).
Proof.
  split.
  - intros target Ht Hz. exact (falsy_target_dash _ _ _ Ht Hz).
  - intros d. unfold target_achievement.
    destruct (scenario_target_price trade) as [p|]; cbn [Js.truthy_opt_number];
      [|discriminate].
    destruct (Js.truthy_number p) eqn:E; [|discriminate].
    cbn [divisor]. intros [= <-]. now apply truthy_number_nonzero.
Qed.

Lemma zero_target_never_divides_witness :
  let trade := trade_of 0 11000 None None (Some 0%Q) in
  scenario_target_price trade = Some 0%Q
  /\ (0 == 0)%Q
  /\ row_achievement (render_trade (fun _ => "") trade) = "-".
Proof.
  intros trade.
  split; [reflexivity|]. split; [reflexivity|].
  exact (proj2 (proj1 (zero_target_never_divides (fun _ => "") trade)
                      0%Q eq_refl (Qeq_refl 0))).
Defined.

(** ** The accessor outside a provider *)

(** C9.  With no enclosing provider [useLanguage] throws, and so does the
    page that starts by calling it; inside a provider it returns that
    provider's value. *)
Theorem useLanguage_outside_provider :
  useLanguage [] = Throws "useLanguage must be used within a LanguageProvider"
  /\ (forall numberToString history summary,
        TradingHistoryPage numberToString [] history summary
        = Throws "useLanguage must be used within a LanguageProvider")
  /\ (forall context outer, useLanguage (context :: outer) = Returns context).
Proof.
  repeat split.
Qed.

(** * Further properties *)

(** ** Which trade a scan picks among equals *)

Section Scan.

(** [test x a]: the trade at hand, with rate [x], replaces the pick with
    rate [a]. *)
Variable test : Q -> Q -> bool.
Variables strict weak : Q -> Q -> Prop.
Hypothesis test_true : forall x a, test x a = true -> strict a x.
Hypothesis test_false : forall x a, test x a = false -> weak x a.
Hypothesis test_irrefl : forall x, test x x = false.
Hypothesis strict_trans : forall a b c, strict a b -> strict b c -> strict a c.
Hypothesis weak_strict : forall a b c, weak a b -> strict b c -> strict a c.

Let scan (acc : Pick) (trade : Trade) : Pick :=
  if test (profit_rate trade) (pick_rate acc) then Listed trade else acc.

Lemma scan_first l :
  forall pre a mid,
    (forall x, In x pre -> strict (profit_rate x) (profit_rate a)) ->
    (forall x, In x mid -> weak (profit_rate x) (profit_rate a)) ->
    exists pre' b post',
      ((pre ++ a :: mid) ++ l)%list = (pre' ++ b :: post')%list
      /\ fold_left scan l (Listed a) = Listed b
      /\ (forall x, In x pre' -> strict (profit_rate x) (profit_rate b))
      /\ (forall x, In x post' -> weak (profit_rate x) (profit_rate b)).
Proof.
  induction l as [|x l IH]; intros pre a mid Hpre Hmid.
  - exists pre, a, mid. rewrite app_nil_r. auto.
  - simpl fold_left. unfold scan at 2. cbn [pick_rate].
    destruct (test (profit_rate x) (profit_rate a)) eqn:E.
    + apply test_true in E.
      destruct (IH (pre ++ a :: mid)%list x []) as (pre' & b & post' & H1 & H2 & H3 & H4).
      * intros y Hy. apply List.in_app_or in Hy. destruct Hy as [Hy | [<- | Hy]].
        -- eapply strict_trans; [now apply Hpre | exact E].
        -- exact E.
        -- eapply weak_strict; [now apply Hmid | exact E].
      * intros y [].
      * exists pre', b, post'. split; [|auto].
        rewrite <- H1. rewrite <- !List.app_assoc. simpl.
        rewrite <- ?List.app_assoc. reflexivity.
    + apply test_false in E.
      destruct (IH pre a (mid ++ [x])%list) as (pre' & b & post' & H1 & H2 & H3 & H4).
      * exact Hpre.
      * intros y Hy. apply List.in_app_or in Hy. destruct Hy as [Hy | [<- | []]].
        -- now apply Hmid.
        -- exact E.
      * exists pre', b, post'. split; [|auto].
        rewrite <- H1. rewrite <- !List.app_assoc. simpl.
        rewrite <- ?List.app_assoc. reflexivity.
Qed.

Lemma scan_from_first x l :
  exists pre b post,
    x :: l = (pre ++ b :: post)%list
    /\ fold_left scan (x :: l) (Listed x) = Listed b
    /\ (forall y, In y pre -> strict (profit_rate y) (profit_rate b))
    /\ (forall y, In y post -> weak (profit_rate y) (profit_rate b)).
Proof.
  simpl fold_left. unfold scan at 2. cbn [pick_rate]. rewrite test_irrefl.
  destruct (scan_first l [] x []) as (pre & b & post & H1 & H2 & H3 & H4);
    [intros ? [] | intros ? [] |].
  exists pre, b, post. auto.
Qed.

End Scan.

(** X1.  Among trades with the highest profit rate the best trade is the
    one that comes first in the list: every trade before it has a strictly
    lower rate, every trade after it a rate that is not higher. *)
Theorem bestTrade_first_maximum (history : list Trade) :
  history <> [] ->
  exists pre b post,
    history = (pre ++ b :: post)%list
    /\ bestTrade history = Listed b
    /\ (forall x, In x pre -> (profit_rate x < profit_rate b)%Q)
    /\ (forall x, In x post -> (profit_rate x <= profit_rate b)%Q).
Proof.
  intros Hne. destruct history as [|x l]; [congruence|].
  unfold bestTrade. cbn [first_or_zero].
  apply (scan_from_first Js.gtb (fun a b => (a < b)%Q) (fun a b => (a <= b)%Q)).
  - intros y a H. now apply ltb_lt in H.
  - intros y a H. now apply ltb_ge in H.
  - intros y. apply ltb_ge. apply Qle_refl.
  - intros a b c. apply Qlt_trans.
  - intros a b c. apply Qle_lt_trans.
Qed.

Lemma bestTrade_first_maximum_witness :
  let a := bare_trade 10 1 in
  let b := bare_trade 10 2 in
  let history := [bare_trade 5 0; a; b] in
  history <> [] /\ bestTrade history = Listed a.
Proof.
  intros a b history. split; [discriminate|].
  destruct (bestTrade_first_maximum history) as (pre & c & post & _ & H & _);
    [discriminate|].
  reflexivity.
Defined.

(** X2.  Among trades with the lowest profit rate the worst trade is the
    one that comes first in the list: every trade before it has a strictly
    higher rate, every trade after it a rate that is not lower. *)
Theorem worstTrade_first_minimum (history : list Trade) :
  history <> [] ->
  exists pre w post,
    history = (pre ++ w :: post)%list
    /\ worstTrade history = Listed w
    /\ (forall x, In x pre -> (profit_rate w < profit_rate x)%Q)
    /\ (forall x, In x post -> (profit_rate w <= profit_rate x)%Q).
Proof.
  intros Hne. destruct history as [|x l]; [congruence|].
  unfold worstTrade. cbn [first_or_zero].
  apply (scan_from_first Js.ltb (fun a b => (b < a)%Q) (fun a b => (b <= a)%Q)).
  - intros y a H. now apply ltb_lt in H.
  - intros y a H. now apply ltb_ge in H.
  - intros y. apply ltb_ge. apply Qle_refl.
  - intros a b c H1 H2. eapply Qlt_trans; eassumption.
  - intros a b c H1 H2. eapply Qlt_le_trans; eassumption.
Qed.

Lemma worstTrade_first_minimum_witness :
  let a := bare_trade (-3) 1 in
  let b := bare_trade (-3) 2 in
  let history := [bare_trade 5 0; a; b] in
  history <> [] /\ worstTrade history = Listed a.
Proof.
  intros a b history. split; [discriminate|].
  destruct (worstTrade_first_minimum history) as (pre & c & post & _ & H & _);
    [discriminate|].
  reflexivity.
Defined.

(** ** The order of the groups *)

Lemma filter_filter_comm {A : Type} (P R : A -> bool) l :
  List.filter P (List.filter R l) = List.filter R (List.filter P l).
Proof.
  induction l as [|x l IH]; simpl; [reflexivity|].
  destruct (R x) eqn:ER, (P x) eqn:EP; simpl; rewrite ?ER, ?EP, IH; reflexivity.
Qed.

Lemma filter_both {A : Type} (P R : A -> bool) l :
  List.filter (fun x => P x && R x) l = List.filter R (List.filter P l).
Proof.
  induction l as [|x l IH]; simpl; [reflexivity|].
  destruct (P x); simpl; [destruct (R x)|]; now rewrite IH.
Qed.

Lemma filter_without_dropped (P : string -> bool) x l :
  P x = false ->
  List.filter P (List.filter (fun k => negb (String.eqb k x)) l) = List.filter P l.
Proof.
  intros HP. induction l as [|y l IH]; simpl; [reflexivity|].
  destruct (String.eqb y x) eqn:E; simpl.
  - apply String.eqb_eq in E. subst y. now rewrite HP.
  - now rewrite IH.
Qed.

Lemma first_occurrences_filter (P : string -> bool) l :
  first_occurrences (List.filter P l) = List.filter P (first_occurrences l).
Proof.
  induction l as [|x l IH]; simpl; [reflexivity|].
  destruct (P x) eqn:E; simpl.
  - rewrite IH. f_equal. apply filter_filter_comm.
  - rewrite IH. symmetry. now apply filter_without_dropped.
Qed.

Lemma fresh_get {V : Type} k (o : list (string * V)) :
  fresh (map fst o) k = match get k o with Some _ => false | None => true end.
Proof.
  unfold fresh. induction o as [|[k0 v0] o IH]; simpl; [reflexivity|].
  rewrite String.eqb_sym.
  destruct (String.eqb k0 k); simpl; [reflexivity | exact IH].
Qed.

(** ** Equal averages in the top list *)

Section Stable.

Context {A : Type}.
Variable after : A -> A -> bool.
Variable P : A -> bool.
Hypothesis peers : forall x y, P x = true -> P y = true -> after x y = false.



End Stable.

Lemma Object_entries_plain {V : Type} (o : list (string * V)) :
  forallb (fun e => negb (is_array_index (fst e))) o = true ->
  Object_entries o = o.
Proof.
  intros H. unfold Object_entries.
  rewrite (List.forallb_filter_id _ _ H).
  replace (List.filter (fun e => is_array_index (fst e)) o) with (@nil (string * V));
    [reflexivity|].
  induction o as [|e o IH]; [reflexivity|].
  cbn [forallb] in H. apply andb_true_iff in H. destruct H as [He Ho].
  cbn [List.filter]. apply negb_true_iff in He. rewrite He. now apply IH.
Qed.



(** ** The language across calls and restarts *)

Lemma setLanguage_calls_other_items calls :
  forall (b : Browser) (key : string),
    key <> "language" ->
    localStorage (setLanguage_calls calls b) !! key = localStorage b !! key.
Proof.
  induction calls as [|lang calls IH]; intros b key Hne; [reflexivity|].
  cbn [setLanguage_calls fold_left]. fold (setLanguage_calls calls (setLanguage lang b)).
  rewrite IH by exact Hne. unfold setLanguage. cbn [localStorage].
  apply lookup_insert_ne. congruence.
Qed.

(** X7.  After any run of [setLanguage] calls the language in memory and
    the stored item are those of the last call, a provider started afresh
    over that storage reports the language of the last call, and no other
    storage item has changed. *)
Theorem last_setLanguage_wins (calls : list Language) (lang : Language)
    (b : Browser) :
  let b' := setLanguage_calls (calls ++ [lang]) b in
  language b' = lang
  /\ localStorage b' !! "language" = Some (language_string lang)
  /\ language (LanguageProvider_start (localStorage b')) = lang
  /\ (forall key, key <> "language" ->
        localStorage b' !! key = localStorage b !! key).
Proof.
  intros b'.
  assert (E : b' = setLanguage lang (setLanguage_calls calls b)).
  { unfold b', setLanguage_calls. now rewrite List.fold_left_app. }
  assert (Hs : localStorage b' !! "language" = Some (language_string lang)).
  { rewrite E. unfold setLanguage. cbn [localStorage]. apply lookup_insert_eq. }
  split; [now rewrite E|]. split; [exact Hs|].
  split; [now apply start_adopts_stored|].
  intros key Hne. unfold b'. now apply setLanguage_calls_other_items.
Qed.

Lemma last_setLanguage_wins_witness :
  let b := {| language := ko; localStorage := <["theme" := "dark"]> ∅ |} in
  let b' := setLanguage_calls [en; ko; en] b in
  "theme" <> "language"
  /\ language b' = en
  /\ localStorage b' !! "theme" = Some "dark".
Proof.
  intros b b'.
  assert (Hne : "theme" <> "language") by discriminate.
  destruct (last_setLanguage_wins [en; ko] en b) as (H1 & _ & _ & H4).
  split; [exact Hne|]. split; [exact H1|].
  exact (H4 "theme" Hne).
Defined.

(** X8.  Starting a provider never writes to the storage, and the provider
    comes up in English exactly when the stored item is ["en"]; with any
    other content (nothing, ["ko"], an unsupported value) it comes up in
    Korean. *)
Theorem start_reads_only (storage : gmap string string) :
  localStorage (LanguageProvider_start storage) = storage
  /\ (language (LanguageProvider_start storage) = en
      <-> storage !! "language" = Some "en")
  /\ (language (LanguageProvider_start storage) = ko
      <-> storage !! "language" <> Some "en").
Proof.
  unfold LanguageProvider_start, load_on_mount, useState_initial.
  cbn [localStorage].
  destruct (bool_decide (storage !! "language" = Some "ko")) eqn:Eko.
  - apply bool_decide_eq_true in Eko. cbn [language localStorage].
    rewrite Eko. repeat split; try discriminate; congruence.
  - destruct (bool_decide (storage !! "language" = Some "en")) eqn:Een.
    + apply bool_decide_eq_true in Een. cbn [language localStorage].
      repeat split; try discriminate; congruence.
    + apply bool_decide_eq_false in Een. cbn [language localStorage].
      repeat split; try discriminate; congruence.
Qed.

Lemma start_reads_only_witness :
  let storage : gmap string string := <["language" := "fr"]> ∅ in
  storage !! "language" <> Some "en"
  /\ language (LanguageProvider_start storage) = ko.
Proof.
  intros storage.
  assert (H : storage !! "language" <> Some "en") by (vm_compute; discriminate).
  split; [exact H|].
  exact (proj2 (proj2 (proj2 (start_reads_only storage))) H).
Defined.

(** ** The dictionaries *)

Lemma dictionary_entries_truthy (lang : Language) (key v : string) :
  translations lang !! key = Some v -> Js.truthy_string v = true.
Proof.
  intros H. destruct lang; unfold translations in H;
    apply elem_of_list_to_map_2 in H;
    repeat (apply elem_of_cons in H; destruct H as [[= _ ->] | H]; [reflexivity|]);
    apply elem_of_nil in H; destruct H.
Qed.

(** X9.  For a key that the dictionary of the active language has, [t]
    returns the dictionary's text (no text is empty, so the fallback to
    the key never hides one), and the two dictionaries have the same
    keys. *)
Theorem t_defined_key (lang : Language) (key v : string) :
  translations lang !! key = Some v ->
  t lang key = v
  /\ v <> ""
  /\ dom (translations ko) = dom (translations en).
Proof.
  intros H. pose proof (dictionary_entries_truthy lang key v H) as Hv.
  split; [unfold t; rewrite H; cbn [Js.string_or]; now rewrite Hv|].
  split; [intros ->; discriminate|].
  unfold translations. rewrite !dom_list_to_map_L. reflexivity.
Qed.

Lemma t_defined_key_witness :
  translations en !! "common.days" = Some "d"
  /\ t en "common.days" = "d"
  /\ t ko "common.days" = "일".
Proof.
  split; [reflexivity|].
  split; [exact (proj1 (t_defined_key en "common.days" "d" eq_refl))
         | exact (proj1 (t_defined_key ko "common.days" "일" eq_refl))].
Defined.

(** ** Percentages *)

Lemma str_app_cons ch (a b : string) : String ch a ++ b = String ch (a ++ b).
Proof. reflexivity. Qed.

Lemma str_app_nil (b : string) : "" ++ b = b.
Proof. reflexivity. Qed.

Lemma str_app_assoc (a b c : string) : (a ++ b) ++ c = a ++ (b ++ c).
Proof.
  induction a as [|ch a IH]; [reflexivity|].
  change (String ch ((a ++ b) ++ c) = String ch (a ++ (b ++ c))).
  now rewrite IH.
Qed.

Lemma str_length_app (a b : string) :
  String.length (a ++ b) = (String.length a + String.length b)%nat.
Proof.
  induction a as [|ch a IH]; [reflexivity|].
  change (S (String.length (a ++ b)) = S (String.length a + String.length b)).
  now rewrite IH.
Qed.

Lemma zeros_length k : String.length (zeros k) = k.
Proof.
  induction k as [|k IH]; [reflexivity|].
  change (S (String.length (zeros k)) = S k). now rewrite IH.
Qed.

Lemma split_at_app n s : fst (split_at n s) ++ snd (split_at n s) = s.
Proof.
  revert s. induction n as [|n IH]; intros [|c s]; simpl; try reflexivity.
  specialize (IH s). destruct (split_at n s) as [a b]. cbn [fst snd] in *.
  change (String c (a ++ b) = String c s). now rewrite IH.
Qed.

Lemma split_at_length n s :
  (n <= String.length s)%nat ->
  String.length (fst (split_at n s)) = n
  /\ String.length (snd (split_at n s)) = (String.length s - n)%nat.
Proof.
  revert s. induction n as [|n IH]; intros [|c s] H; simpl in *;
    try (split; reflexivity); try lia.
  destruct (IH s) as [H1 H2]; [lia|].
  destruct (split_at n s) as [a b]. cbn [fst snd String.length] in *.
  split; [now rewrite H1 | exact H2].
Qed.

Lemma decimal_value_zeros k s : decimal_value (zeros k ++ s) = decimal_value s.
Proof.
  induction k as [|k IH]; [reflexivity|].
  unfold decimal_value in *. cbn [zeros].
  rewrite str_app_assoc, str_app_cons, str_app_nil.
  cbn [NilEmpty.uint_of_string uint_of_char].
  destruct (NilEmpty.uint_of_string (zeros k ++ s)) as [d|],
           (NilEmpty.uint_of_string s) as [d'|]; cbn in *;
    try change (Z.of_uint (Decimal.D0 d)) with (Z.of_uint d); congruence.
Qed.

Lemma decimal_value_digits n :
  (0 <= n)%Z ->
  decimal_value (Js.digits n) = Some n /\ (1 <= String.length (Js.digits n))%nat.
Proof.
  intros Hn. unfold decimal_value, Js.digits.
  destruct n as [|p|p]; [split; [reflexivity | simpl; lia] | | lia].
  cbn [Z.to_int NilZero.string_of_int NilZero.string_of_uint].
  pose proof (DecimalPos.Unsigned.to_uint_nonnil p) as Hnil.
  pose proof (DecimalPos.Unsigned.of_to p) as Hof.
  set (u := Pos.to_uint p) in *.
  assert (Hz : NilZero.string_of_uint u = NilEmpty.string_of_uint u)
    by (destruct u; [congruence | reflexivity ..]).
  rewrite Hz, NilEmpty.usu. cbn [option_map]. unfold Z.of_uint. rewrite Hof.
  split; [reflexivity|].
  destruct u; [congruence | cbn [NilEmpty.string_of_uint String.length]; lia ..].
Qed.

(** X10.  Below 10^21 in magnitude, [formatPercent] writes a sign ([+]
    from zero upwards, [-] below zero), at least one digit, a point, exactly
    two digits and [%]; the digits read without the point are the integer
    nearest to the magnitude times 100 (the larger one on a tie). *)
Theorem formatPercent_shape (numberToString : Q -> string) (value : Q) :
  (Qabs value < Js.ten21)%Q ->
  exists a b,
    formatPercent numberToString value
    = (if Qle_bool 0 value then "+" else "-") ++ a ++ "." ++ b ++ "%"
    /\ (1 <= String.length a)%nat
    /\ String.length b = 2%nat
    /\ decimal_value (a ++ b) = Some (Js.nearest (Qabs value * 100)).
Proof.
  intros Hsmall. unfold formatPercent, toFixed.
  set (x := if Js.ltb value 0 then (- value)%Q else value).
  assert (Hx : (x == Qabs value)%Q /\ (0 <= x)%Q
               /\ Qle_bool 0 value = negb (Js.ltb value 0)).
  { unfold x, Js.ltb. rewrite negb_involutive.
    destruct (Qle_bool 0 value) eqn:E; cbn [negb].
    - apply Qle_bool_iff in E. split; [now rewrite Qabs_pos | now split].
    - assert (Hneg : (value < 0)%Q).
      { apply Qnot_le_lt. intros H. apply Qle_bool_iff in H. congruence. }
      split; [rewrite Qabs_neg; [reflexivity | now apply Qlt_le_weak]|].
      split; [|reflexivity].
      apply (Qplus_le_l _ _ value). ring_simplify. now apply Qlt_le_weak. }
  destruct Hx as (Habs & Hpos & Hsign).
  destruct (Qle_bool Js.ten21 x) eqn:Ebig.
  { apply Qle_bool_iff in Ebig. rewrite Habs in Ebig.
    exfalso. exact (Qlt_not_le _ _ Hsmall Ebig). }
  set (n := Js.nearest (x * inject_Z (10 ^ Z.of_nat 2))).
  assert (Hn : n = Js.nearest (Qabs value * 100)).
  { unfold n, Js.nearest. apply Qfloor_comp. rewrite Habs. reflexivity. }
  assert (Hn0 : (0 <= n)%Z).
  { apply nearest_bounds. rewrite <- (Qmult_0_l (inject_Z (10 ^ Z.of_nat 2))).
    apply Qmult_le_compat_r; [exact Hpos | discriminate]. }
  destruct (decimal_value_digits n Hn0) as [Hval Hlen].
  set (k := String.length (Js.digits n)) in *.
  set (m := if (k <=? 2)%nat then zeros (2 + 1 - k) ++ Js.digits n else Js.digits n).
  set (k' := if (k <=? 2)%nat then (2 + 1)%nat else k).
  assert (Hm : String.length m = k' /\ (3 <= k')%nat
               /\ decimal_value m = Some n).
  { unfold m, k'. destruct (k <=? 2)%nat eqn:E.
    - apply Nat.leb_le in E.
      rewrite str_length_app, zeros_length, decimal_value_zeros.
      fold k. split; [lia|]. split; [lia | exact Hval].
    - apply Nat.leb_gt in E. split; [reflexivity|]. split; [lia | exact Hval]. }
  destruct Hm as (Hml & Hk' & Hmv).
  pose proof (split_at_app (k' - 2) m) as Happ.
  destruct (split_at_length (k' - 2) m) as [Ha Hb]; [lia|].
  destruct (split_at (k' - 2) m) as [a b]. cbn [fst snd] in *.
  exists a, b.
  split; [|split; [lia|split; [lia|]]].
  - rewrite Hsign. destruct (Js.ltb value 0); cbn [negb];
      rewrite !str_app_assoc; reflexivity.
  - rewrite Happ, Hmv, Hn. reflexivity.
Qed.

Lemma formatPercent_shape_witness :
  (Qabs (12345 # 1000) < Js.ten21)%Q
  /\ formatPercent (fun _ => "") (12345 # 1000) = "+12.35%"
  /\ formatPercent (fun _ => "") (- (1 # 1000)) = "-0.00%".
Proof.
  split; [reflexivity|].
  destruct (formatPercent_shape (fun _ => "") (12345 # 1000)) as (a & b & _);
    [reflexivity|].
  split; reflexivity.
Defined.

(** ** Who is in the fallback groups *)

Lemma string_or_badge (o : option string) (d : string) :
  Js.string_or o d = match badge o with Some s => s | None => d end.
Proof.
  destruct o as [s|]; [|reflexivity].
  unfold Js.string_or, badge. now destruct (Js.truthy_string s).
Qed.

Lemma group_of_label (label_of : Trade -> string) history label :
  labelled label_of label history <> [] ->
  exists p,
    In (label, p)
       (fold_left (fun acc trade => tally (label_of trade) (profit_rate trade) acc)
                  history [])
    /\ count p = length (labelled label_of label history).
Proof.
  intros Hne.
  pose proof (groups_fold label_of history [] [] (groups_start _)) as H.
  set (acc := fold_left _ history []) in *.
  destruct H as (Hnd & Hnone & Hsome & _). simpl in *.
  destruct (get label acc) as [p|] eqn:E.
  - exists p. split; [now apply (In_get _ _ _ Hnd)|].
    now destruct (Hsome _ _ E) as (_ & Hc & _).
  - now apply Hnone in E.
Qed.

(** X11.  The sector group labelled [t("common.other")] holds exactly the
    trades that have no scenario, no sector or an empty sector, together
    with any trade whose sector is that very text; the period group
    labelled [t("common.unclassified")] likewise.  When there is such a
    trade the group exists and counts them all. *)
Theorem fallback_group_members (t_ : string -> string) (history : list Trade) :
  let other := t_ "common.other" in
  let unclassified := t_ "common.unclassified" in
  let no_sector trade :=
    match badge (scenario_sector trade) with
    | None => true
    | Some s => String.eqb s other
    end in
  let no_period trade :=
    match badge (scenario_investment_period trade) with
    | None => true
    | Some s => String.eqb s unclassified
    end in
  (labelled (sector_label t_) other history = List.filter no_sector history
   /\ (List.filter no_sector history <> [] ->
       exists p, In (other, p) (sectorPerformance t_ history)
                 /\ count p = length (List.filter no_sector history)))
  /\ (labelled (period_label t_) unclassified history
      = List.filter no_period history
      /\ (List.filter no_period history <> [] ->
          exists p, In (unclassified, p) (periodPerformance t_ history)
                    /\ count p = length (List.filter no_period history))).
Proof.
  intros other unclassified no_sector no_period.
  assert (Es : labelled (sector_label t_) other history
               = List.filter no_sector history).
  { unfold labelled. apply List.filter_ext. intros trade.
    unfold sector_label, no_sector. rewrite string_or_badge.
    destruct (badge (scenario_sector trade)); [reflexivity|].
    apply String.eqb_refl. }
  assert (Ep : labelled (period_label t_) unclassified history
               = List.filter no_period history).
  { unfold labelled. apply List.filter_ext. intros trade.
    unfold period_label, no_period. rewrite string_or_badge.
    destruct (badge (scenario_investment_period trade)); [reflexivity|].
    apply String.eqb_refl. }
  split; (split; [assumption|]).
  - rewrite <- Es. apply group_of_label.
  - rewrite <- Ep. apply group_of_label.
Qed.

Lemma fallback_group_members_witness :
  let history := [bare_trade 1 0;
                  trade_of 2 0 (Some "") None None;
                  trade_of 3 0 (Some "tech") None None;
                  trade_of 4 0 None None None] in
  exists p, In ("common.other", p) (sectorPerformance (t ko) history)
            /\ count p = 3%nat.
Proof.
  intros history.
  destruct (proj1 (fallback_group_members (t ko) history)) as (_ & H).
  destruct H as (p & Hin & Hc); [discriminate|].
  exists p. split; [exact Hin | exact Hc].
Defined.

(** * The engine's numbers and inherited members *)

(** ** The translation function *)

Lemma runtime_t_plain (lang : Language) (key : string) :
  Runtime.inherited key = false ->
  Runtime.t lang key = Runtime.Text (t lang key).
Proof.
  intros H. unfold Runtime.t, t, Js.string_or.
  destruct (translations lang !! key) as [s|]; [now destruct (Js.truthy_string s)|].
  now rewrite H.
Qed.

(** C6 on the code.  [t("constructor")] is not a dictionary key in either
    language, yet [t] does not return the key: the lookup finds the member
    that every object literal inherits from [Object.prototype] and returns
    that, and so for each of the inherited names.  For a missing key that
    is not such a name [t] returns the key. *)
Theorem t_returns_inherited_member (lang : Language) :
  translations lang !! "constructor" = None
  /\ Runtime.t lang "constructor" = Runtime.Member "constructor"
  /\ (forall key, In key Runtime.Object_prototype_members ->
        translations lang !! key = None
        /\ Runtime.t lang key = Runtime.Member key)
  /\ (forall key,
        translations lang !! key = None ->
        Runtime.inherited key = false ->
        Runtime.t lang key = Runtime.Text key).
Proof.
  split; [destruct lang; reflexivity|].
  split; [destruct lang; reflexivity|].
  split.
  - intros key Hin. unfold Runtime.Object_prototype_members in Hin.
    repeat (destruct Hin as [<- | Hin]; [destruct lang; split; reflexivity|]).
    destruct Hin.
  - intros key Hnone Hplain. unfold Runtime.t. now rewrite Hnone, Hplain.
Qed.

Lemma t_returns_inherited_member_witness :
  translations ko !! "nonexistent.key" = None
  /\ Runtime.inherited "nonexistent.key" = false
  /\ Runtime.t ko "nonexistent.key" = Runtime.Text "nonexistent.key".
Proof.
  split; [reflexivity|]. split; [reflexivity|].
  exact (proj2 (proj2 (proj2 (t_returns_inherited_member ko)))
               "nonexistent.key" eq_refl eq_refl).
Defined.

(** ** Target achievement in doubles *)

Lemma number_truthy (q : Q) :
  Runtime.is_number q = true -> ~ (q == 0)%Q ->
  Runtime.truthy (Runtime.number_of q) = true.
Proof.
  unfold Runtime.is_number. intros H Hnz.
  destruct (Runtime.number_of q) as [s | s | | s m e]; cbn in *;
    try reflexivity; try discriminate.
  apply Qeq_bool_iff in H. exfalso. apply Hnz. now symmetry.
Qed.

Lemma number_of_zero (q : Q) :
  (q == 0)%Q -> Runtime.number_of q = S754_zero false.
Proof.
  destruct q as [n d]. unfold Qeq. cbn. intros H.
  assert (n = 0%Z) by lia. subst n. reflexivity.
Qed.

Lemma runtime_toFixed0_value (numberToString : Q -> string) (r : spec_float) x :
  Runtime.number_value r = Some x ->
  Runtime.toFixed0 numberToString r = Js.toFixed0 numberToString x.
Proof.
  destruct r as [s | s | | s m e]; cbn; intros H; try discriminate;
    now injection H as <-.
Qed.

(** C8, amended.  For a trade whose target price is present and not zero,
    the cell shows [toFixed(0)] of the double that
    (sell price / target price) * 100 evaluates to, followed by [%]; when
    that double is finite and below 10^21 in magnitude, this is the sign
    and the decimal numeral of the integer nearest to it (the larger one
    on a tie).  For a trade with no target price, and for one whose target
    price is zero, the cell shows the dash. *)
Theorem target_achievement_rendering (numberToString : Q -> string)
    (trade : Trade) :
  (forall target,
     scenario_target_price trade = Some target ->
     Runtime.is_number target = true ->
     ~ (target == 0)%Q ->
     let ratio := Runtime.achievement_ratio (sell_price trade) target in
     Runtime.target_achievement_text numberToString trade
     = Runtime.toFixed0 numberToString ratio ++ "%"
     /\ (forall x,
           Runtime.number_value ratio = Some x ->
           (Qabs x < Js.ten21)%Q ->
           exists n : Z,
             (0 <= n)%Z
             /\ (inject_Z n - (1 # 2) <= Qabs x)%Q
             /\ (Qabs x < inject_Z n + (1 # 2))%Q
             /\ Runtime.target_achievement_text numberToString trade
                = (sign_text x ++ Js.digits n) ++ "%"))
  /\ (scenario_target_price trade = None ->
      Runtime.target_achievement_text numberToString trade = "-")
  /\ (forall target,
        scenario_target_price trade = Some target ->
        (target == 0)%Q ->
        Runtime.target_achievement_text numberToString trade = "-").
Proof.
  split; [|split].
  - intros target Ht Hnum Hnz ratio.
    assert (E : Runtime.target_achievement_text numberToString trade
                = Runtime.toFixed0 numberToString ratio ++ "%").
    { unfold Runtime.target_achievement_text. rewrite Ht.
      now rewrite (number_truthy target Hnum Hnz). }
    split; [exact E|].
    intros x Hx Hsmall.
    destruct (toFixed0_rounds numberToString x Hsmall) as (n & H0 & H1 & H2 & H3).
    exists n. rewrite E, (runtime_toFixed0_value _ _ _ Hx), H3. auto.
  - intros Ht. unfold Runtime.target_achievement_text. now rewrite Ht.
  - intros target Ht Hz. unfold Runtime.target_achievement_text.
    rewrite Ht, (number_of_zero _ Hz). reflexivity.
Qed.

Lemma target_achievement_rendering_witness :
  let trade := trade_of 0 11000 None None (Some 10000%Q) in
  scenario_target_price trade = Some 10000%Q
  /\ Runtime.is_number 10000 = true
  /\ ~ (10000 == 0)%Q
  /\ Runtime.target_achievement_text (fun _ => "") trade = "110%"
  /\ Runtime.target_achievement_text (fun _ => "")
       (trade_of 0 41000 None None (Some 40000%Q)) = "102%".
Proof.
  intros trade.
  assert (Hnz : ~ (10000 == 0)%Q) by discriminate.
  assert (Hnz' : ~ (40000 == 0)%Q) by discriminate.
  split; [reflexivity|]. split; [reflexivity|]. split; [exact Hnz|].
  split.
  - exact (proj1 (proj1 (target_achievement_rendering (fun _ => "") trade)
                        10000%Q eq_refl eq_refl Hnz)).
  - exact (proj1 (proj1 (target_achievement_rendering (fun _ => "")
                           (trade_of 0 41000 None None (Some 40000%Q)))
                        40000%Q eq_refl eq_refl Hnz')).
Defined.

(** 41000 against a target of 40000: the quotient times 100 is the double
    just below 102.5, and the cell shows 102. *)
Example achievement_just_below_half :
  Runtime.target_achievement_text (fun _ => "")
    (trade_of 0 41000 None None (Some 40000%Q)) = "102%".
Proof. reflexivity. Qed.

(** ** Sector and period aggregation as the engine runs it *)

Lemma alter_key_absent {V : Type} (f : V -> V) key (o : list (string * V)) :
  get key o = None -> alter_key f key o = o.
Proof.
  induction o as [|[k0 v0] o IH]; simpl; [reflexivity|].
  destruct (String.eqb k0 key); [discriminate|].
  intros H. now rewrite IH.
Qed.

Lemma runtime_tally_cases label rate acc :
  let bump := fun p =>
    {| Runtime.total := Runtime.add (Runtime.total p) (Runtime.number_of rate);
       Runtime.count := Runtime.count p + 1;
       Runtime.avgProfit :=
         Runtime.div (Runtime.add (Runtime.total p) (Runtime.number_of rate))
                     (Runtime.number_of
                        (inject_Z (Z.of_nat (Runtime.count p + 1)))) |} in
  Runtime.tally label rate acc =
  match get label acc with
  | Some _ => alter_key bump label acc
  | None =>
      if Runtime.inherited label then acc
      else (acc ++ [(label, bump {| Runtime.total := S754_zero false;
                                    Runtime.count := 0;
                                    Runtime.avgProfit := S754_zero false |})])%list
  end.
Proof.
  intros bump. unfold Runtime.tally. destruct (get label acc) eqn:E.
  - rewrite !alter_alter. apply alter_key_ext. intros v. reflexivity.
  - destruct (Runtime.inherited label).
    + now rewrite !(alter_key_absent _ _ _ E).
    + unfold assign. rewrite E. now rewrite !(alter_app_absent _ _ _ _ E).
Qed.

Lemma runtime_sum_counts_app a b :
  Runtime.sum_counts (a ++ b)
  = (Runtime.sum_counts a + Runtime.sum_counts b)%nat.
Proof.
  induction a as [|g a IH]; simpl; [reflexivity|]. rewrite IH. lia.
Qed.

Lemma runtime_sum_counts_alter f key o p :
  get key o = Some p ->
  (Runtime.sum_counts (alter_key f key o) + Runtime.count p
   = Runtime.sum_counts o + Runtime.count (f p))%nat.
Proof.
  induction o as [|[k0 v0] o IH]; simpl; [discriminate|].
  destruct (String.eqb k0 key); simpl.
  - intros [= ->]. lia.
  - intros H. specialize (IH H). lia.
Qed.

Lemma running_sum_snoc rates r :
  Runtime.running_sum (rates ++ [r])
  = Runtime.add (Runtime.running_sum rates) (Runtime.number_of r).
Proof.
  unfold Runtime.running_sum. now rewrite List.fold_left_app.
Qed.

Section RuntimeGrouping.

Variable label_of : Trade -> string.

Let plain trade := negb (Runtime.inherited (label_of trade)).

Lemma runtime_bump_group seen trade p :
  Runtime.count p = length (labelled label_of (label_of trade) seen) ->
  Runtime.total p
  = Runtime.running_sum (map profit_rate (labelled label_of (label_of trade) seen)) ->
  let members := labelled label_of (label_of trade) (seen ++ [trade]) in
  let total' := Runtime.add (Runtime.total p) (Runtime.number_of (profit_rate trade)) in
  members <> []
  /\ (Runtime.count p + 1)%nat = length members
  /\ total' = Runtime.running_sum (map profit_rate members)
  /\ Runtime.div total'
       (Runtime.number_of (inject_Z (Z.of_nat (Runtime.count p + 1))))
     = Runtime.div total'
         (Runtime.number_of (inject_Z (Z.of_nat (length members)))).
Proof.
  intros Hc Ht members total'. subst members total'.
  rewrite labelled_same.
  set (M := labelled label_of (label_of trade) seen) in *.
  split; [destruct M; discriminate|].
  assert (Hlen : (Runtime.count p + 1)%nat = length (M ++ [trade])).
  { rewrite List.length_app. simpl. lia. }
  split; [exact Hlen|].
  split; [rewrite List.map_app; cbn [List.map];
          rewrite running_sum_snoc, Ht; reflexivity|].
  now rewrite Hlen.
Qed.

Lemma runtime_groups_step acc seen trade :
  runtime_groups label_of acc seen ->
  runtime_groups label_of
    (Runtime.tally (label_of trade) (profit_rate trade) acc) (seen ++ [trade]).
Proof.
  intros (Hnd & Hnone & Hsome & Hsum).
  rewrite runtime_tally_cases. cbv zeta. unfold runtime_groups.
  rewrite List.filter_app, List.length_app. cbn [List.filter].
  destruct (get (label_of trade) acc) as [p0|] eqn:E.
  - (* the label has a group of its own *)
    destruct (Hsome _ _ E) as (Hplain & _ & Hc & Ht & _).
    rewrite Hplain. cbn [negb length].
    split; [now rewrite keys_alter|].
    split; [|split].
    + intros k Hk.
      destruct (String.eqb (label_of trade) k) eqn:Ek.
      * apply String.eqb_eq in Ek. subst k.
        rewrite get_alter_same, E in Hk. discriminate.
      * apply String.eqb_neq in Ek.
        rewrite get_alter_other in Hk by congruence.
        rewrite labelled_other by exact Ek. now apply Hnone.
    + intros k p Hk.
      destruct (String.eqb (label_of trade) k) eqn:Ek.
      * apply String.eqb_eq in Ek. subst k.
        rewrite get_alter_same, E in Hk. injection Hk as <-.
        cbn [Runtime.total Runtime.count Runtime.avgProfit].
        destruct (runtime_bump_group seen trade p0 Hc Ht) as (H1 & H2 & H3 & H4).
        repeat split; assumption.
      * apply String.eqb_neq in Ek.
        rewrite get_alter_other in Hk by congruence.
        rewrite labelled_other by exact Ek. now apply Hsome.
    + match goal with |- Runtime.sum_counts (alter_key ?f _ _) = _ =>
        pose proof (runtime_sum_counts_alter f _ _ _ E) as H end.
      cbn [Runtime.count] in H. lia.
  - destruct (Runtime.inherited (label_of trade)) eqn:Einh; cbn [negb length].
    + (* the writes land on an inherited member *)
      split; [exact Hnd|]. split; [|split].
      * intros k Hk.
        destruct (String.eqb (label_of trade) k) eqn:Ek.
        -- apply String.eqb_eq in Ek. subst k. now left.
        -- apply String.eqb_neq in Ek.
           rewrite labelled_other by exact Ek. now apply Hnone.
      * intros k p Hk.
        assert (Hne : label_of trade <> k) by congruence.
        rewrite labelled_other by exact Hne. now apply Hsome.
      * rewrite Hsum. lia.
    + (* a new group is added last *)
      assert (Hempty : labelled label_of (label_of trade) seen = []).
      { destruct (Hnone _ E) as [H | H]; [congruence | exact H]. }
      split; [|split; [|split]].
      * rewrite List.map_app. simpl.
        apply List.NoDup_app; [exact Hnd | repeat constructor; intros [] |].
        intros a Ha [<-|[]]. now apply (get_None_keys (label_of trade) acc).
      * intros k Hk.
        destruct (get k acc) as [x|] eqn:Ex.
        -- rewrite (get_app_present _ _ _ _ _ Ex) in Hk. discriminate.
        -- rewrite (get_app_absent _ _ _ _ Ex) in Hk.
           destruct (String.eqb (label_of trade) k) eqn:Ek; [discriminate|].
           apply String.eqb_neq in Ek.
           rewrite labelled_other by exact Ek. now apply Hnone.
      * intros k p Hk.
        destruct (get k acc) as [x|] eqn:Ex.
        -- rewrite (get_app_present _ _ _ _ _ Ex) in Hk. injection Hk as <-.
           assert (Hne : label_of trade <> k) by congruence.
           rewrite labelled_other by exact Hne. now apply Hsome.
        -- rewrite (get_app_absent _ _ _ _ Ex) in Hk.
           destruct (String.eqb (label_of trade) k) eqn:Ek; [|discriminate].
           apply String.eqb_eq in Ek. subst k. injection Hk as <-.
           cbn [Runtime.total Runtime.count Runtime.avgProfit].
           split; [exact Einh|].
           apply (runtime_bump_group seen trade
                    {| Runtime.total := S754_zero false; Runtime.count := 0;
                       Runtime.avgProfit := S754_zero false |});
             rewrite Hempty; reflexivity.
      * rewrite runtime_sum_counts_app. simpl. lia.
Qed.

Lemma runtime_groups_fold l :
  forall acc seen,
    runtime_groups label_of acc seen ->
    runtime_groups label_of
      (fold_left (fun acc trade =>
                    Runtime.tally (label_of trade) (profit_rate trade) acc) l acc)
      (seen ++ l).
Proof.
  induction l as [|x l IH]; intros acc seen H; simpl.
  - now rewrite app_nil_r.
  - replace (seen ++ x :: l)%list with ((seen ++ [x]) ++ l)%list
      by (rewrite <- List.app_assoc; reflexivity).
    apply IH. now apply runtime_groups_step.
Qed.

Lemma runtime_groups_start : runtime_groups label_of [] [].
Proof.
  split; [constructor|]. split; [now right|].
  split; [discriminate | reflexivity].
Qed.

End RuntimeGrouping.

Lemma runtime_groups_entries (label_of : Trade -> string) acc history :
  runtime_groups label_of acc history ->
  (forall label p, In (label, p) acc ->
     let members := labelled label_of label history in
     members <> []
     /\ Runtime.count p = length members
     /\ Runtime.total p = Runtime.running_sum (map profit_rate members)
     /\ Runtime.avgProfit p
        = Runtime.div (Runtime.running_sum (map profit_rate members))
            (Runtime.number_of (inject_Z (Z.of_nat (length members)))))
  /\ (forall trade, In trade history ->
        Runtime.inherited (label_of trade) = false ->
        exists p, In (label_of trade, p) acc)
  /\ List.NoDup (map fst acc)
  /\ ((forall trade, In trade history ->
         Runtime.inherited (label_of trade) = false) ->
      Runtime.sum_counts acc = length history).
Proof.
  intros (Hnd & Hnone & Hsome & Hsum).
  split; [|split; [|split]]; [| |exact Hnd|].
  - intros label p Hin. apply (In_get _ _ _ Hnd) in Hin.
    destruct (Hsome _ _ Hin) as (_ & H1 & H2 & H3 & H4).
    cbv zeta. rewrite <- H3. auto.
  - intros trade Hin Hplain.
    destruct (get (label_of trade) acc) as [p|] eqn:E.
    + exists p. now apply (In_get _ _ _ Hnd).
    + exfalso. destruct (Hnone _ E) as [H | Hempty]; [congruence|].
      assert (Hm : In trade (labelled label_of (label_of trade) history)).
      { unfold labelled. apply List.filter_In. split; [exact Hin|].
        apply String.eqb_refl. }
      rewrite Hempty in Hm. exact Hm.
  - intros Hall. rewrite Hsum. f_equal. apply List.forallb_filter_id.
    apply List.forallb_forall. intros trade Hin.
    now rewrite (Hall trade Hin).
Qed.

Lemma fold_left_pointwise {A B : Type} (f g : A -> B -> A) l :
  (forall a b, f a b = g a b) ->
  forall a, fold_left f l a = fold_left g l a.
Proof.
  intros H. induction l as [|x l IH]; intros a; simpl; [reflexivity|].
  now rewrite H, IH.
Qed.

Lemma sector_label_in_words (t_ : string -> string) trade :
  sector_label t_ trade = label_in_words sector (t_ "common.other") trade.
Proof.
  unfold sector_label, scenario_sector, label_in_words, Js.string_or.
  destruct (scenario trade) as [sc|]; [|reflexivity].
  destruct (sector sc) as [[|c s]|]; reflexivity.
Qed.

Lemma period_label_in_words (t_ : string -> string) trade :
  period_label t_ trade
  = label_in_words investment_period (t_ "common.unclassified") trade.
Proof.
  unfold period_label, scenario_investment_period, label_in_words, Js.string_or.
  destruct (scenario trade) as [sc|]; [|reflexivity].
  destruct (investment_period sc) as [[|c s]|]; reflexivity.
Qed.

Lemma runtime_sector_groups (t_ : string -> string) history :
  runtime_groups (label_in_words sector (t_ "common.other"))
                 (Runtime.sectorPerformance t_ history) history.
Proof.
  unfold Runtime.sectorPerformance.
  rewrite (fold_left_pointwise _
             (fun acc trade =>
                Runtime.tally (label_in_words sector (t_ "common.other") trade)
                              (profit_rate trade) acc));
    [|intros a b; now rewrite sector_label_in_words].
  exact (runtime_groups_fold _ history [] [] (runtime_groups_start _)).
Qed.

Lemma runtime_period_groups (t_ : string -> string) history :
  runtime_groups (label_in_words investment_period (t_ "common.unclassified"))
                 (Runtime.periodPerformance t_ history) history.
Proof.
  unfold Runtime.periodPerformance.
  rewrite (fold_left_pointwise _
             (fun acc trade =>
                Runtime.tally
                  (label_in_words investment_period (t_ "common.unclassified") trade)
                  (profit_rate trade) acc));
    [|intros a b; now rewrite period_label_in_words].
  exact (runtime_groups_fold _ history [] [] (runtime_groups_start _)).
Qed.

(** C2 as stated fails.  Three trades of one sector with rates 1, 0 and 0:
    the reported average is a double and is not the mean 1/3.  Two trades,
    the first in a sector called "constructor": that trade is counted in
    no group, and the counts add up to 1. *)
Lemma performance_claim_fails :
  let thirds := [trade_of 1 0 (Some "tech") None None;
                 trade_of 0 0 (Some "tech") None None;
                 trade_of 0 0 (Some "tech") None None] in
  let leak := [trade_of 1 0 (Some "constructor") None None;
               trade_of 2 0 (Some "tech") None None] in
  ~ (forall p v,
       In ("tech", p) (Runtime.sectorPerformance (t ko) thirds) ->
       Runtime.number_value (Runtime.avgProfit p) = Some v ->
       (v == mean_rate (labelled (sector_label (t ko)) "tech" thirds))%Q)
  /\ ~ (Runtime.sum_counts (Runtime.sectorPerformance (t ko) leak) = length leak).
Proof.
  intros thirds leak. split.
  - intros H.
    specialize (H {| Runtime.total := S754_finite false 4503599627370496 (-52);
                     Runtime.count := 3;
                     Runtime.avgProfit := S754_finite false 6004799503160661 (-54) |}
                  (6004799503160661 # 18014398509481984)%Q).
    assert (Hin : (6004799503160661 # 18014398509481984
                   == mean_rate (labelled (sector_label (t ko)) "tech" thirds))%Q).
    { apply H; [vm_compute; left; reflexivity | reflexivity]. }
    vm_compute in Hin. discriminate.
  - vm_compute. discriminate.
Qed.

(** C2, amended.  In the sector grouping and in the period grouping alike,
    a group holds exactly the trades of the list whose label is the
    group's label, the label being the scenario's field when it is a
    non-empty string and the fallback otherwise.  Its count is their
    number, its total is the sum of their profit rates added up in doubles
    from left to right, and its average is that total divided in doubles by
    the count.  No label has two groups.  Every trade whose label is not
    the name of a member inherited from [Object.prototype] has its group,
    and when no trade has such a label the counts of all groups add up to
    the number of trades. *)
Theorem runtime_performance_groups (t_ : string -> string)
    (history : list Trade) :
  let other := t_ "common.other" in
  let unclassified := t_ "common.unclassified" in
  ((forall label p, In (label, p) (Runtime.sectorPerformance t_ history) ->
      let members := members_in_words sector other label history in
      members <> []
      /\ Runtime.count p = length members
      /\ Runtime.total p = Runtime.running_sum (map profit_rate members)
      /\ Runtime.avgProfit p
         = Runtime.div (Runtime.running_sum (map profit_rate members))
             (Runtime.number_of (inject_Z (Z.of_nat (length members)))))
   /\ (forall trade, In trade history ->
         Runtime.inherited (label_in_words sector other trade) = false ->
         exists p, In (label_in_words sector other trade, p)
                      (Runtime.sectorPerformance t_ history))
   /\ List.NoDup (map fst (Runtime.sectorPerformance t_ history))
   /\ ((forall trade, In trade history ->
          Runtime.inherited (label_in_words sector other trade) = false) ->
       Runtime.sum_counts (Runtime.sectorPerformance t_ history)
       = length history))
  /\
  ((forall label p, In (label, p) (Runtime.periodPerformance t_ history) ->
      let members :=
        members_in_words investment_period unclassified label history in
      members <> []
      /\ Runtime.count p = length members
      /\ Runtime.total p = Runtime.running_sum (map profit_rate members)
      /\ Runtime.avgProfit p
         = Runtime.div (Runtime.running_sum (map profit_rate members))
             (Runtime.number_of (inject_Z (Z.of_nat (length members)))))
   /\ (forall trade, In trade history ->
         Runtime.inherited (label_in_words investment_period unclassified trade)
         = false ->
         exists p, In (label_in_words investment_period unclassified trade, p)
                      (Runtime.periodPerformance t_ history))
   /\ List.NoDup (map fst (Runtime.periodPerformance t_ history))
   /\ ((forall trade, In trade history ->
          Runtime.inherited (label_in_words investment_period unclassified trade)
          = false) ->
       Runtime.sum_counts (Runtime.periodPerformance t_ history)
       = length history)).
Proof.
  intros other unclassified. split.
  - exact (runtime_groups_entries _ _ _ (runtime_sector_groups t_ history)).
  - exact (runtime_groups_entries _ _ _ (runtime_period_groups t_ history)).
Qed.

Lemma runtime_performance_groups_witness :
  let history := [trade_of (1 # 10) 0 (Some "tech") (Some "short") None;
                  trade_of (2 # 10) 0 (Some "tech") None None;
                  trade_of 10 0 (Some "") (Some "short") None;
                  bare_trade (3 # 10) 0] in
  let tech := {| Runtime.total := S754_finite false 5404319552844596 (-54);
                 Runtime.count := 2;
                 Runtime.avgProfit := S754_finite false 5404319552844596 (-55) |} in
  In ("tech", tech) (Runtime.sectorPerformance (t ko) history)
  /\ members_in_words sector "common.other" "tech" history
     = [trade_of (1 # 10) 0 (Some "tech") (Some "short") None;
        trade_of (2 # 10) 0 (Some "tech") None None]
  /\ Runtime.avgProfit tech
     = Runtime.div (Runtime.running_sum [1 # 10; 2 # 10]%Q) (Runtime.number_of 2)
  /\ map fst (Runtime.periodPerformance (t ko) history)
     = ["short"; "common.unclassified"]
  /\ Runtime.sum_counts (Runtime.periodPerformance (t ko) history) = 4%nat.
Proof.
  intros history tech.
  assert (Hin : In ("tech", tech) (Runtime.sectorPerformance (t ko) history))
    by (vm_compute; left; reflexivity).
  destruct (runtime_performance_groups (t ko) history) as [(Hs & _) (_ & _ & _ & Hp)].
  split; [exact Hin|]. split; [reflexivity|].
  split; [exact (proj2 (proj2 (proj2 (Hs "tech" tech Hin))))|].
  split; [reflexivity|].
  apply Hp. intros trade Hin'.
  repeat (destruct Hin' as [<- | Hin']; [reflexivity|]). destruct Hin'.
Defined.

(** ** The order in which the groups are listed *)

Lemma runtime_keys_tally label rate acc :
  map fst (Runtime.tally label rate acc) =
  (map fst acc
   ++ (if fresh (map fst acc) label && negb (Runtime.inherited label)
       then [label] else []))%list.
Proof.
  rewrite runtime_tally_cases. cbv zeta. rewrite fresh_get.
  destruct (get label acc); cbn [andb].
  - rewrite keys_alter. now rewrite app_nil_r.
  - destruct (Runtime.inherited label); cbn [negb].
    + now rewrite app_nil_r.
    + now rewrite List.map_app.
Qed.

Lemma runtime_keys_fold (label_of : Trade -> string) l :
  forall acc,
    map fst (fold_left (fun acc trade =>
                          Runtime.tally (label_of trade) (profit_rate trade) acc)
                       l acc)
    = (map fst acc
       ++ first_occurrences
            (List.filter (fun k => fresh (map fst acc) k
                                   && negb (Runtime.inherited k))
                         (map label_of l)))%list.
Proof.
  induction l as [|x l IH]; intros acc; simpl.
  - now rewrite app_nil_r.
  - rewrite IH, runtime_keys_tally.
    destruct (fresh (map fst acc) (label_of x)
              && negb (Runtime.inherited (label_of x))) eqn:E; simpl.
    + rewrite <- List.app_assoc. simpl. do 2 f_equal.
      rewrite <- first_occurrences_filter, <- filter_both.
      f_equal. apply List.filter_ext. intros k. unfold fresh.
      rewrite List.existsb_app. simpl. rewrite orb_false_r, negb_orb.
      destruct (existsb (String.eqb k) (map fst acc)),
               (Runtime.inherited k), (String.eqb k (label_of x)); reflexivity.
    + now rewrite app_nil_r.
Qed.

Lemma In_first_occurrences k l : In k (first_occurrences l) -> In k l.
Proof.
  induction l as [|x l IH]; simpl; [tauto|].
  intros [H | H]; [now left|].
  apply List.filter_In in H. right. now apply IH.
Qed.

Lemma runtime_listing_order (label_of : Trade -> string) history :
  forallb (fun k => negb (is_array_index k)) (map label_of history) = true ->
  map fst (Object_entries
             (fold_left (fun acc trade =>
                           Runtime.tally (label_of trade) (profit_rate trade) acc)
                        history []))
  = first_occurrences
      (List.filter (fun k => negb (Runtime.inherited k)) (map label_of history)).
Proof.
  intros Hplain.
  set (acc := fold_left _ history []).
  assert (Hkeys : map fst acc
                  = first_occurrences
                      (List.filter (fun k => negb (Runtime.inherited k))
                                   (map label_of history))).
  { unfold acc. rewrite runtime_keys_fold. simpl. f_equal. }
  rewrite Object_entries_plain; [exact Hkeys|].
  apply List.forallb_forall. intros [k p] Hin. cbn [fst].
  assert (Hk : In k (map fst acc)).
  { change k with (fst (k, p)). now apply List.in_map. }
  rewrite Hkeys in Hk. apply In_first_occurrences in Hk.
  apply List.filter_In in Hk. destruct Hk as [Hk _].
  rewrite List.forallb_forall in Hplain. now apply Hplain.
Qed.

(** X3.  When no label is an array-index numeral, [Object.entries] lists
    the groups of the sector object and of the period object in the order
    in which their labels first occur in the trade list; labels that name
    a member inherited from [Object.prototype] have no group and are
    passed over. *)
Theorem groups_listed_in_first_occurrence_order (t_ : string -> string)
    (history : list Trade) :
  let sectors := map (label_in_words sector (t_ "common.other")) history in
  let periods :=
    map (label_in_words investment_period (t_ "common.unclassified")) history in
  (forallb (fun k => negb (is_array_index k)) sectors = true ->
   map fst (Object_entries (Runtime.sectorPerformance t_ history))
   = first_occurrences
       (List.filter (fun k => negb (Runtime.inherited k)) sectors))
  /\ (forallb (fun k => negb (is_array_index k)) periods = true ->
      map fst (Object_entries (Runtime.periodPerformance t_ history))
      = first_occurrences
          (List.filter (fun k => negb (Runtime.inherited k)) periods)).
Proof.
  intros sectors periods. split; intros Hplain.
  - unfold Runtime.sectorPerformance.
    rewrite (fold_left_pointwise _
               (fun acc trade =>
                  Runtime.tally (label_in_words sector (t_ "common.other") trade)
                                (profit_rate trade) acc));
      [|intros a b; now rewrite sector_label_in_words].
    now apply runtime_listing_order.
  - unfold Runtime.periodPerformance.
    rewrite (fold_left_pointwise _
               (fun acc trade =>
                  Runtime.tally
                    (label_in_words investment_period (t_ "common.unclassified") trade)
                    (profit_rate trade) acc));
      [|intros a b; now rewrite period_label_in_words].
    now apply runtime_listing_order.
Qed.

Lemma groups_listed_in_first_occurrence_order_witness :
  let history := [trade_of 1 0 (Some "tech") (Some "long") None;
                  trade_of 2 0 (Some "toString") (Some "short") None;
                  trade_of 3 0 (Some "bio") (Some "long") None;
                  trade_of 4 0 (Some "tech") None None] in
  forallb (fun k => negb (is_array_index k))
          (map (label_in_words sector (t ko "common.other")) history) = true
  /\ map fst (Object_entries (Runtime.sectorPerformance (t ko) history))
     = ["tech"; "bio"]
  /\ map fst (Object_entries (Runtime.periodPerformance (t ko) history))
     = ["long"; "short"; "common.unclassified"].
Proof.
  intros history. split; [reflexivity|].
  destruct (groups_listed_in_first_occurrence_order (t ko) history) as [Hs Hp].
  split; [exact (Hs eq_refl) | exact (Hp eq_refl)].
Defined.
